(** * Test-result parsing and reporting pipeline of [src/runner/tasks.py]

    A shallow embedding of the geocoder-tester runner: the banner
    classifier and summary parser (two regular expressions plus Python
    number handling), the result extractor, the text-table renderer, and
    the orchestration tasks with their effects on the context, the file
    system and the log.

    Conventions.
    - Text is [string]; a character is a code point below 256, so [\d] is
      [0-9] and [.] is any character but the line feed.
    - [int] is [Z]; reading one from a text, as [int] does, stops at
      4300 digits.  [float] is IEEE binary64, given by [spec_float] with
      [prec = 53] and [emax = 1024].
    - A [dict] with string keys is a [gmap string _].
    - Effects are threaded through a [world]; an uncaught Python exception
      is the outcome [Raised]. *)

From Stdlib Require Import ZArith Ascii Lia DecimalString.
From Stdlib Require Import Floats.SpecFloat.
From stdpp Require Import gmap strings list.

Local Arguments String.append !_ _ / : simpl nomatch.

(** ** Text *)

Module Text.

Fixpoint repeat_char (c : ascii) (n : nat) : string :=
  match n with
  | O => ""
  | S n' => String c (repeat_char c n')
  end.

(** [sep.join(l)] *)
Fixpoint join (sep : string) (l : list string) : string :=
  match l with
  | [] => ""
  | [x] => x
  | x :: l' => x +:+ sep +:+ join sep l'
  end.

(** [s.split(c)] for a one-character separator: never the empty list. *)
Fixpoint split_on (c : ascii) (s : string) : list string :=
  match s with
  | EmptyString => [""]
  | String a s' =>
      if Ascii.eqb a c then "" :: split_on c s'
      else match split_on c s' with
           | x :: r => String a x :: r
           | [] => [String a ""]
           end
  end.

Fixpoint all_chars (P : ascii -> bool) (s : string) : bool :=
  match s with
  | EmptyString => true
  | String a s' => P a && all_chars P s'
  end.

Fixpoint take (n : nat) (s : string) : string :=
  match n, s with
  | S n', String a s' => String a (take n' s')
  | _, _ => ""
  end.

Fixpoint starts_with (p s : string) : bool :=
  match p, s with
  | EmptyString, _ => true
  | String a p', String b s' => Ascii.eqb a b && starts_with p' s'
  | String _ _, EmptyString => false
  end.

(** [needle in s] *)
Fixpoint contains (needle s : string) : bool :=
  starts_with needle s
  || match s with
     | EmptyString => false
     | String _ s' => contains needle s'
     end.

(** [s.replace(old, new)] for a non-empty [old]: occurrences are replaced
    from the left and do not overlap.  [skip] counts the characters of an
    occurrence that are still to be dropped. *)
Fixpoint replace_from (old new : string) (skip : nat) (s : string) : string :=
  match s with
  | EmptyString => ""
  | String a s' =>
      match skip with
      | S k => replace_from old new k s'
      | O =>
          if starts_with old s
          then new +:+ replace_from old new (String.length old - 1) s'
          else String a (replace_from old new 0 s')
      end
  end.

Definition replace (old new s : string) : string := replace_from old new 0 s.

Definition is_digit (c : ascii) : bool :=
  (48 <=? nat_of_ascii c)%nat && (nat_of_ascii c <=? 57)%nat.

Definition digit_val (c : ascii) : Z := Z.of_nat (nat_of_ascii c) - 48.

(** Value of a run of decimal digits, most significant first. *)
Fixpoint digits_val (acc : Z) (s : string) : Z :=
  match s with
  | EmptyString => acc
  | String c s' => digits_val (10 * acc + digit_val c) s'
  end.

(** [str(n)] for an [int]. *)
Definition of_Z (n : Z) : string := NilZero.string_of_int (Z.to_int n).

(** ["%0<w>d" % n] for [0 <= n]. *)
Definition zero_pad (w : nat) (n : Z) : string :=
  let d := of_Z n in
  repeat_char "0" (w - String.length d) +:+ d.

End Text.

(** ** Regular expressions

    The fragment of [re] the two patterns are written in, with the
    backtracking semantics of [re.match]: alternatives are tried in
    priority order (greedy repetition first takes as much as it can, an
    optional part is first tried present) and the first overall success
    wins.  The matcher is written in continuation-passing style: the
    continuation is the rest of the pattern. *)

Module Re.

(** One-character matchers. *)
Inductive cset :=
| Chr (c : ascii)   (* a literal character *)
| Digit             (* \d *)
| Any.              (* .  (no DOTALL flag: not the line feed) *)

Inductive regex :=
| Lit (s : string)                  (* a run of literal characters *)
| Star (c : cset)                   (* c*  *)
| Plus (c : cset)                   (* c+  *)
| Opt (r : regex)                   (* (r)?  *)
| Group (name : string) (r : regex) (* (?P<name>r) *)
| Seq (r1 r2 : regex).

Definition cset_test (c : cset) (a : ascii) : bool :=
  match c with
  | Chr x => Ascii.eqb x a
  | Digit => Text.is_digit a
  | Any => negb (Ascii.eqb a "010")
  end.

Definition groups := gmap string string.

Section Matcher.
Context {A : Type}.

Fixpoint lit (p s : string) (k : string -> option A) : option A :=
  match p with
  | EmptyString => k s
  | String a p' =>
      match s with
      | String b s' => if Ascii.eqb a b then lit p' s' k else None
      | EmptyString => None
      end
  end.

(** Greedy [c*]: the longest run is tried first, then shorter ones. *)
Fixpoint star (c : cset) (s : string) (k : string -> option A) : option A :=
  match s with
  | String a s' =>
      if cset_test c a
      then match star c s' k with
           | Some r => Some r
           | None => k s
           end
      else k s
  | EmptyString => k s
  end.

Definition plus (c : cset) (s : string) (k : string -> option A) : option A :=
  match s with
  | String a s' => if cset_test c a then star c s' k else None
  | EmptyString => None
  end.
End Matcher.

Fixpoint run (r : regex) (s : string) (g : groups)
    (k : string -> groups -> option groups) : option groups :=
  match r with
  | Lit p => lit p s (fun s' => k s' g)
  | Star c => star c s (fun s' => k s' g)
  | Plus c => plus c s (fun s' => k s' g)
  | Opt r' =>
      match run r' s g k with
      | Some res => Some res
      | None => k s g
      end
  | Group name r' =>
      run r' s g (fun s' g' =>
        k s' (<[name := Text.take (String.length s - String.length s') s]> g'))
  | Seq r1 r2 => run r1 s g (fun s' g' => run r2 s' g' k)
  end.

(** [pattern.match(s)]: anchored at the start of [s], not at its end. *)
Definition match_ (r : regex) (s : string) : option groups :=
  run r s ∅ (fun _ g => Some g).

End Re.

Declare Scope re_scope.
Delimit Scope re_scope with re.
Infix "⋅" := Re.Seq (at level 60, right associativity) : re_scope.

(** [RESULT_LINE_PATTERN = re.compile("===+.*===+")] *)
Definition RESULT_LINE_PATTERN : Re.regex :=
  (Re.Lit "==" ⋅ Re.Plus (Re.Chr "=") ⋅ Re.Star Re.Any
   ⋅ Re.Lit "==" ⋅ Re.Plus (Re.Chr "="))%re.

(** [RESULT_PATTERN]: the pattern of the summary line.  In the order of
    the source text it is: [===+], an optional clause made of a space, the
    digits [(?P<failed>\d+)] and [ failed]; an optional comma; a space; an
    optional clause made of the digits [(?P<success>\d+)] and [ passed];
    any text; [in ]; the group [time], any text; [ seconds]; any text.

    The two unnamed parentheses of the source only delimit the optional
    clauses; the code reads the named groups alone. *)
Definition RESULT_PATTERN : Re.regex :=
  (Re.Lit "==" ⋅ Re.Plus (Re.Chr "=")
   ⋅ Re.Opt (Re.Lit " " ⋅ Re.Group "failed" (Re.Plus Re.Digit) ⋅ Re.Lit " failed")
   ⋅ Re.Opt (Re.Lit ",")
   ⋅ Re.Lit " "
   ⋅ Re.Opt (Re.Group "success" (Re.Plus Re.Digit) ⋅ Re.Lit " passed")
   ⋅ Re.Star Re.Any
   ⋅ Re.Lit "in "
   ⋅ Re.Group "time" (Re.Star Re.Any)
   ⋅ Re.Lit " seconds"
   ⋅ Re.Star Re.Any)%re.

(** ** Python floats

    [float] values are binary64 numbers: [spec_float] with 53 bits of
    precision.  Rounding is to nearest, ties to even, as computed by
    [binary_round_aux]. *)

Module Float.

Definition prec : Z := 53.
Definition emax : Z := 1024.

(** [float(n)] for an integer that fits; also how an exact integer
    constant such as [100.0] is written. *)
Definition of_Z (n : Z) : spec_float := binary_normalize prec emax n 0 false.

(** The quotient [a / b] of two positive integers, correctly rounded. *)
Definition of_ratio (neg : bool) (a b : positive) : spec_float :=
  let '(q, e, l) := SFdiv_core_binary prec emax (Zpos a) 0 (Zpos b) 0 in
  binary_round_aux prec emax neg q e l.

(** The decimal number [m * 10^e], correctly rounded. *)
Definition of_decimal (neg : bool) (m e : Z) : spec_float :=
  match m with
  | Zpos p =>
      if (0 <=? e)%Z
      then binary_round prec emax neg (p * Z.to_pos (10 ^ e)) 0
      else of_ratio neg p (Z.to_pos (10 ^ (- e)))
  | _ => S754_zero neg
  end.

Definition is_zero (x : spec_float) : bool :=
  match x with S754_zero _ => true | _ => false end.

(** *** [float(text)] *)

(** White space that [float] strips from both ends. *)
Definition is_space (c : ascii) : bool :=
  match nat_of_ascii c with
  | 9 | 10 | 11 | 12 | 13 | 32 | 133 | 160 => true
  | _ => false
  end%nat.

Fixpoint lstrip (s : string) : string :=
  match s with
  | String c s' => if is_space c then lstrip s' else s
  | EmptyString => ""
  end.

Fixpoint rstrip (s : string) : string :=
  match s with
  | String c s' =>
      match rstrip s' with
      | EmptyString => if is_space c then "" else String c ""
      | r => String c r
      end
  | EmptyString => ""
  end.

Definition strip (s : string) : string := rstrip (lstrip s).

(** Underscores may only stand between two digits; they are dropped.
    [prev] is the previous character, if any. *)
Definition prev_is (P : ascii -> bool) (prev : option ascii) : bool :=
  match prev with
  | Some p => P p
  | None => false
  end.

Fixpoint drop_underscores (prev : option ascii) (s : string) : option string :=
  match s with
  | EmptyString =>
      if prev_is (Ascii.eqb "_") prev then None else Some ""
  | String c s' =>
      if Ascii.eqb c "_"
      then if prev_is Text.is_digit prev
           then drop_underscores (Some c) s' else None
      else if prev_is (Ascii.eqb "_") prev && negb (Text.is_digit c) then None
           else String c <$> drop_underscores (Some c) s'
  end.

(** The longest prefix of digits, and the rest. *)
Fixpoint span_digits (s : string) : string * string :=
  match s with
  | String c s' =>
      if Text.is_digit c
      then let '(d, r) := span_digits s' in (String c d, r)
      else ("", s)
  | EmptyString => ("", "")
  end.

Definition split_sign (s : string) : bool * string :=
  match s with
  | String c s' =>
      if Ascii.eqb c "-" then (true, s')
      else if Ascii.eqb c "+" then (false, s')
      else (false, s)
  | EmptyString => (false, "")
  end.

(** [digits [. digits] [(e|E) [sign] digits]] with at least one digit
    before the exponent: the digits read as an integer, and the power
    of ten that scales it. *)
Definition parse_decimal (s : string) : option (Z * Z) :=
  let '(ip, r1) := span_digits s in
  let '(fp, r2) :=
    match r1 with
    | String c r => if Ascii.eqb c "." then span_digits r else ("", r1)
    | EmptyString => ("", r1)
    end in
  if (String.length ip + String.length fp =? 0)%nat then None
  else
    let m := Text.digits_val (Text.digits_val 0 ip) fp in
    let scale := (- Z.of_nat (String.length fp))%Z in
    match r2 with
    | EmptyString => Some (m, scale)
    | String c r3 =>
        if Ascii.eqb c "e" || Ascii.eqb c "E"
        then
          let '(eneg, r4) := split_sign r3 in
          let '(ed, r5) := span_digits r4 in
          match ed, r5 with
          | String _ _, EmptyString =>
              let ev := Text.digits_val 0 ed in
              Some (m, ((if eneg then - ev else ev) + scale)%Z)
          | _, _ => None
          end
        else None
    end.

Definition lower (c : ascii) : ascii :=
  let n := nat_of_ascii c in
  if (65 <=? n)%nat && (n <=? 90)%nat then ascii_of_nat (n + 32) else c.

Fixpoint lowercase (s : string) : string :=
  match s with
  | String c s' => String (lower c) (lowercase s')
  | EmptyString => ""
  end.

Definition parse_inf_nan (neg : bool) (s : string) : option spec_float :=
  let l := lowercase s in
  if String.eqb l "inf" || String.eqb l "infinity" then Some (S754_infinity neg)
  else if String.eqb l "nan" then Some S754_nan
  else None.

(** [float(s)]: [None] stands for [ValueError]. *)
Definition parse (s : string) : option spec_float :=
  match drop_underscores None (strip s) with
  | None => None
  | Some core =>
      let '(neg, body) := split_sign core in
      match parse_decimal body with
      | Some (m, e) => Some (of_decimal neg m e)
      | None => parse_inf_nan neg body
      end
  end.

(** *** Exact views of a finite float *)

(** [modf]: the integral part (towards zero) as an integer, and the
    fractional part, which is exact. *)
Definition modf (s : bool) (m : positive) (e : Z) : Z * spec_float :=
  if (0 <=? e)%Z
  then (cond_Zopp s (Z.pos m * 2 ^ e), S754_zero s)
  else
    let d := (2 ^ (- e))%Z in
    (cond_Zopp s (Z.pos m / d),
     binary_normalize prec emax (cond_Zopp s (Z.pos m mod d)) e s).

(** The integer nearest to [m * 2^e], ties to the even one. *)
Definition round_half_even (m : positive) (e : Z) : Z :=
  if (0 <=? e)%Z then Z.pos m * 2 ^ e
  else
    let d := (2 ^ (- e))%Z in
    let q := (Z.pos m / d)%Z in
    let r := (Z.pos m mod d)%Z in
    match (2 * r ?= d)%Z with
    | Lt => q
    | Gt => (q + 1)%Z
    | Eq => if Z.even q then q else (q + 1)%Z
    end.

(** *** [format(x, ".0%")]: [x * 100] in floating point, printed with no
    decimals, then a percent sign. *)
Definition format_percent0 (x : spec_float) : string :=
  match SFmul prec emax x (of_Z 100) with
  | S754_nan => "nan%"
  | S754_infinity s => (if s then "-inf%" else "inf%")
  | S754_zero s => (if s then "-0%" else "0%")
  | S754_finite s m e =>
      (if s then "-" else "") +:+ Text.of_Z (round_half_even m e) +:+ "%"
  end.

End Float.

(** ** Python values and exceptions *)

Inductive exn :=
| ValueError
| TypeError
| OverflowError
| ZeroDivisionError
| KeyError (key : string)
| AttributeError (name : string)
| FileExistsError (path : string)
| ConnectionError
| HTTPError
| Exception_ (msg : string).

Inductive outcome (A : Type) :=
| Returned (a : A)
| Raised (e : exn).
Arguments Returned {A} a.
Arguments Raised {A} e.

(** The values stored in result records. *)
Inductive value :=
| VNone
| VInt (n : Z)
| VStr (s : string).

(** A result record, a table row: a [dict] with string keys. *)
Abbreviation record := (gmap string value).

(** [bool(v)] *)
Definition truthy (v : value) : bool :=
  match v with
  | VNone => false
  | VInt n => negb (n =? 0)%Z
  | VStr s => negb (String.eqb s "")
  end.

(** [str(v)] *)
Definition py_str (v : value) : string :=
  match v with
  | VNone => "None"
  | VInt n => Text.of_Z n
  | VStr s => s
  end.

(** An [int] or [None], as a record value. *)
Definition int_or_none (n : option Z) : value :=
  match n with
  | Some n => VInt n
  | None => VNone
  end.

(** A number that is an [int] or a [float]. *)
Inductive number :=
| NInt (n : Z)
| NFloat (x : spec_float).

(** [a / b] on two [int]s: correctly rounded; [OverflowError] when the
    rounded quotient is beyond the largest float. *)
Definition int_truediv (a b : Z) : outcome spec_float :=
  match a, b with
  | _, Z0 => Raised ZeroDivisionError
  | Z0, _ => Returned (S754_zero (b <? 0)%Z)
  | Zpos p, Zpos q | Zneg p, Zneg q =>
      match Float.of_ratio false p q with
      | S754_infinity _ => Raised OverflowError
      | x => Returned x
      end
  | Zpos p, Zneg q | Zneg p, Zpos q =>
      match Float.of_ratio true p q with
      | S754_infinity _ => Raised OverflowError
      | x => Returned x
      end
  end.

(** [a + b] where each operand is an [int] or [None]. *)
Definition add_ints (a b : option Z) : outcome Z :=
  match a, b with
  | Some x, Some y => Returned (x + y)%Z
  | _, _ => Raised TypeError
  end.

(** [a / b] where [a] is an [int] or [None] and [b] an [int]. *)
Definition div_ints (a : option Z) (b : Z) : outcome spec_float :=
  match a with
  | Some x => int_truediv x b
  | None => Raised TypeError
  end.

(** [f"{v:.0%}"]: an [int] is first converted to [float]. *)
Definition format_percent (v : number) : outcome string :=
  match v with
  | NFloat x => Returned (Float.format_percent0 x)
  | NInt n =>
      match Float.of_Z n with
      | S754_infinity _ => Raised OverflowError
      | x => Returned (Float.format_percent0 x)
      end
  end.

(** The most digits [int] reads from a text (the default of
    [sys.int_max_str_digits]). *)
Definition int_max_str_digits : Z := 4300.

(** [int(val)] for a [str] or [None]: white space, an optional sign and
    digits with single underscores between them.  The digits are counted
    without the sign and the underscores, leading zeros included; more
    than [int_max_str_digits] of them are a [ValueError]. *)
Definition int_ (val : option string) : outcome Z :=
  match val with
  | None => Raised TypeError
  | Some s =>
      match Float.drop_underscores None (Float.strip s) with
      | None => Raised ValueError
      | Some core =>
          let '(neg, body) := Float.split_sign core in
          match Float.span_digits body with
          | (String c d, EmptyString) =>
              if (int_max_str_digits <? Z.of_nat (String.length (String c d)))%Z
              then Raised ValueError
              else
                let n := Text.digits_val 0 (String c d) in
                Returned (if neg then (- n)%Z else n)
          | _ => Raised ValueError
          end
      end
  end.

(** [float(val)] for a [str] or [None]. *)
Definition float_ (val : option string) : outcome spec_float :=
  match val with
  | None => Raised TypeError
  | Some s =>
      match Float.parse s with
      | Some x => Returned x
      | None => Raised ValueError
      end
  end.

(** *** [datetime.timedelta] *)

Record timedelta := Timedelta { days : Z; seconds : Z; microseconds : Z }.

(** The last step of the constructor: the fraction of a microsecond left
    over is rounded to the nearest whole one, and a tie goes to the side
    that makes the total [sofar] even. *)
Definition nearest_us (sofar : Z) (leftover : spec_float) : Z :=
  match leftover with
  | S754_finite s m e =>
      match (2 * Z.pos m ?= 2 ^ (- e))%Z with
      | Lt => 0
      | Gt => cond_Zopp s 1
      | Eq => if Z.odd sofar then cond_Zopp s 1 else 0
      end
  | _ => 0
  end%Z.

(** [datetime.timedelta(seconds=x)] for a [float]: the whole seconds are
    exact; the fraction is scaled to microseconds in floating point and
    rounded; the normalised result must stay within 999999999 days. *)
Definition timedelta_of_seconds (x : spec_float) : outcome timedelta :=
  match x with
  | S754_nan => Raised ValueError
  | S754_infinity _ => Raised OverflowError
  | S754_zero _ => Returned (Timedelta 0 0 0)
  | S754_finite s m e =>
      let '(whole, frac) := Float.modf s m e in
      let sum := (whole * 1000000)%Z in
      let us :=
        match SFmul Float.prec Float.emax (Float.of_Z 1000000) frac with
        | S754_finite s' m' e' =>
            let '(whole_us, leftover) := Float.modf s' m' e' in
            let sofar := (sum + whole_us)%Z in
            (sofar + nearest_us sofar leftover)%Z
        | _ => sum
        end in
      let d := (us / 1000000 / 86400)%Z in
      if (Z.abs d <=? 999999999)%Z
      then Returned (Timedelta d (us / 1000000 mod 86400) (us mod 1000000))
      else Raised OverflowError
  end.

(** [str(td)] *)
Definition timedelta_str (td : timedelta) : string :=
  let mm := (seconds td / 60)%Z in
  let ss := (seconds td mod 60)%Z in
  let hh := (mm / 60)%Z in
  let mm := (mm mod 60)%Z in
  let s := Text.of_Z hh +:+ ":" +:+ Text.zero_pad 2 mm +:+ ":" +:+ Text.zero_pad 2 ss in
  let s :=
    if (days td =? 0)%Z then s
    else Text.of_Z (days td)
         +:+ (if (Z.abs (days td) =? 1)%Z then " day, " else " days, ") +:+ s in
  if (microseconds td =? 0)%Z then s
  else s +:+ "." +:+ Text.zero_pad 6 (microseconds td).


(** ** Paths *)

Module Path.

Fixpoint ends_with_slash (s : string) : bool :=
  match s with
  | EmptyString => false
  | String c EmptyString => Ascii.eqb c "/"
  | String _ s' => ends_with_slash s'
  end.

(** [os.path.join(a, b)] *)
Definition join (a b : string) : string :=
  if Text.starts_with "/" b then b
  else if String.eqb a "" || ends_with_slash a then a +:+ b
  else a +:+ "/" +:+ b.

(** The part of [s] up to and including its last slash. *)
Fixpoint head (s : string) : string :=
  match s with
  | EmptyString => ""
  | String c s' =>
      if Text.contains "/" s then String c (head s') else ""
  end.

Fixpoint rstrip_slashes (s : string) : string :=
  match s with
  | EmptyString => ""
  | String c s' =>
      match rstrip_slashes s' with
      | EmptyString => if Ascii.eqb c "/" then "" else String c ""
      | r => String c r
      end
  end.

(** [os.path.dirname(p)] *)
Definition dirname (p : string) : string :=
  let h := head p in
  if Text.all_chars (Ascii.eqb "/") h then h else rstrip_slashes h.

(** The directories above [p]: its prefixes that a slash follows. *)
Fixpoint ancestors (p : string) : list string :=
  match p with
  | EmptyString => []
  | String c p' =>
      (if Text.starts_with "/" p' then [String c ""] else [])
      ++ (String c <$> ancestors p')
  end.

End Path.

(** ** The world the tasks run in *)

Inductive level := INFO | WARNING | ERROR.

Inductive event :=
| Log (l : level) (msg : string)
| MakeDirs (path : string)
| RunCommand (command log_file : string)
| HttpGet (url : string)
| FileWrite (path content : string).

(** A test category of the configuration: [{name, selector?, remaining_tests?}]. *)
Record category := Category {
  cat_name : option string;
  cat_selector : option string;
  cat_remaining_tests : option bool;
}.

(** The invoke context [ctx]: the configuration, plus [output_dir] once
    it is set.  [cfg_url] is [None] when the configuration has no [url]
    key, and [Some None] when the key holds no value. *)
Record context := Context {
  cfg_url : option (option string);
  cfg_regions : list string;
  cfg_categories : list category;
  base_output_dir : string;
  geocoder_sources : string;
  additional_pytest_args : option (list string);
  output_dir : option string;
}.

Record world := World {
  ctx : context;
  dirs : gset string;       (* the directories that exist *)
  trace : list event;       (* what happened so far, oldest first *)
}.

Definition set_output_dir (d : string) (c : context) : context :=
  Context (cfg_url c) (cfg_regions c) (cfg_categories c) (base_output_dir c)
          (geocoder_sources c) (additional_pytest_args c) (Some d).

Definition set_regions (r : list string) (c : context) : context :=
  Context (cfg_url c) r (cfg_categories c) (base_output_dir c)
          (geocoder_sources c) (additional_pytest_args c) (output_dir c).

(** *** Computations: state passing, with exceptions *)

Definition M (A : Type) : Type := world -> outcome A * world.

Definition ret {A} (a : A) : M A := fun w => (Returned a, w).

Definition bind {A B} (m : M A) (k : A -> M B) : M B :=
  fun w =>
    match m w with
    | (Returned a, w') => k a w'
    | (Raised e, w') => (Raised e, w')
    end.

Definition raise {A} (e : exn) : M A := fun w => (Raised e, w).

(** A pure step that may raise. *)
Definition lift {A} (o : outcome A) : M A := fun w => (o, w).

Notation "x <- m ;; k" := (bind m (fun x => k))
  (at level 100, m at next level, right associativity).
Notation "m ;; k" := (bind m (fun _ => k))
  (at level 100, right associativity).

Definition emit (ev : event) : M unit :=
  fun w => (Returned tt, World (ctx w) (dirs w) (trace w ++ [ev])).

Definition logging (l : level) (msg : string) : M unit := emit (Log l msg).

Definition get_ctx : M context := fun w => (Returned (ctx w), w).

Definition put_ctx (c : context) : M unit :=
  fun w => (Returned tt, World c (dirs w) (trace w)).

(** [os.path.exists(p)] for a directory. *)
Definition path_exists (p : string) : M bool :=
  fun w => (Returned (bool_decide (p ∈ dirs w)), w).

(** [os.makedirs(p)] *)
Definition makedirs (p : string) : M unit :=
  fun w =>
    if bool_decide (p ∈ dirs w) then (Raised (FileExistsError p), w)
    else (Returned tt,
          World (ctx w) ({[p]} ∪ list_to_set (Path.ancestors p) ∪ dirs w)
                (trace w ++ [MakeDirs p])).

Fixpoint for_each {A B} (l : list A) (f : A -> M B) : M (list B) :=
  match l with
  | [] => ret []
  | x :: l' => (y <- f x ;; ys <- for_each l' f ;; ret (y :: ys))
  end.

(** What the tasks get from outside. *)
Record response := Response {
  raise_for_status : outcome unit;
  (* [.json()], then [.get("version")] on it: a JSON object answers with
     the member or [None], anything else has no [get]. *)
  json : outcome (option (gmap string value));
}.

Record environment := Environment {
  now_isoformat : string;                   (* datetime.datetime.now().isoformat() *)
  run_stdout : string -> string;            (* stdout of ctx.run(command, warn=True) *)
  requests_get : string -> outcome response;(* requests.get(url, verify=False) *)
  repr_category : category -> string;       (* f"{category}" *)
  repr_record : record -> string;           (* f"{res}" *)
  json_dumps : string -> string -> value -> string -> string;
                                            (* json.dumps of name, url, version, md_report *)
  csv_text : list string -> list record -> string;
                                            (* header and rows of csv.DictWriter *)
}.

(** ** The runner: [src/runner/tasks.py] *)

Definition _get_remaining_tests (c : context) : string :=
  let selectors := omap cat_selector (cfg_categories c) in
  Text.join " and " ((fun s => "not " +:+ s) <$> selectors).

Definition _init_output_dir (env : environment) (test_name : string) : M string :=
  c <- get_ctx ;;
  match output_dir c with
  | Some d => ret d
  | None =>
      let dt := now_isoformat env in
      let dir_name := base_output_dir c +:+ "/" +:+ test_name +:+ "_" +:+ dt in
      makedirs dir_name ;;
      put_ctx (set_output_dir dir_name c) ;;
      ret dir_name
  end.

(** *** The table *)

(** [format(v, "^n")]: [v] centred in [n] columns, the odd blank on the
    right; a longer text is kept whole.  [None] has no such format. *)
Definition center (s : string) (n : nat) : string :=
  let pad := n - String.length s in
  Text.repeat_char " " (pad / 2) +:+ s +:+ Text.repeat_char " " (pad - pad / 2).

Definition format_center (v : value) (n : nat) : outcome string :=
  match v with
  | VNone => Raised TypeError
  | _ => Returned (center (py_str v) n)
  end.

(** A template ["{k1:^n1}|{k2:^n2}|..."] is kept as its cells; a column name
    is taken to be a plain replacement-field name (not empty, not a
    number, free of the characters [{ } . [ : !]), so that a cell looks
    its name up among the keyword arguments. *)
Definition template := list (string * nat).

Definition plain_field (key : string) : bool :=
  negb (String.eqb key "")
  && negb (Text.all_chars Text.is_digit key)
  && Text.all_chars
       (fun c => negb (Ascii.eqb c "{" || Ascii.eqb c "}" || Ascii.eqb c "."
                       || Ascii.eqb c "[" || Ascii.eqb c ":" || Ascii.eqb c "!"))
       key.

Fixpoint format_cells (tpl : template) (kwargs : record) : outcome (list string) :=
  match tpl with
  | [] => Returned []
  | (key, n) :: tpl' =>
      match kwargs !! key with
      | None => Raised (KeyError key)
      | Some v =>
          match format_center v n with
          | Raised e => Raised e
          | Returned cell =>
              match format_cells tpl' kwargs with
              | Raised e => Raised e
              | Returned cells => Returned (cell :: cells)
              end
          end
      end
  end.

(** [tpl.format] applied to the keyword arguments [kwargs]. *)
Definition format_template (tpl : template) (kwargs : record) : outcome string :=
  match format_cells tpl kwargs with
  | Returned cells => Returned (Text.join "|" cells)
  | Raised e => Raised e
  end.

(** [dict(zip(keys, vals))] *)
Definition dict_zip (keys : list string) (vals : list value) : record :=
  list_to_map (reverse (zip keys vals)).

(** The second loop of [_pretty_print]: a column grows to the length of
    a value, plus two, when the value is longer than the column. *)
Definition widen (d : record) (lengths : gmap string nat) (key : string)
    : gmap string nat :=
  let i := String.length (py_str (default (VStr "") (d !! key))) in
  if (lengths !!! key <? i)%nat then <[key := (i + 2)%nat]> lengths else lengths.

Definition column_lengths (dicts : list record) (keys : list string)
    : gmap string nat :=
  let lengths :=
    foldl (fun l key => <[key := (String.length key + 2)%nat]> l) ∅ keys in
  foldl (fun l d => foldl (widen d) l keys) lengths dicts.

(** [d.get(key) or "_"] *)
Definition cell_value (d : record) (key : string) : value :=
  match d !! key with
  | Some v => if truthy v then v else VStr "_"
  | None => VStr "_"
  end.

Fixpoint render_rows (tpl : template) (keys : list string) (dicts : list record)
    : outcome (list string) :=
  match dicts with
  | [] => Returned []
  | d :: dicts' =>
      let row := foldl (fun r key => <[key := cell_value d key]> r) ∅ keys in
      match format_template tpl row with
      | Raised e => Raised e
      | Returned line =>
          match render_rows tpl keys dicts' with
          | Raised e => Raised e
          | Returned lines => Returned (line :: lines)
          end
      end
  end.

Definition _pretty_print (dicts : list record) (keys : list string)
    : outcome (list string) :=
  match dicts with
  | [] => Returned []
  | _ =>
      let lengths := column_lengths dicts keys in
      let tpl : template := (fun key => (key, lengths !!! key)) <$> keys in
      match format_template tpl (dict_zip keys (VStr <$> keys)) with
      | Raised e => Raised e
      | Returned header =>
          match format_template tpl
                  (dict_zip keys
                     ((fun k => VStr (Text.repeat_char "-" (lengths !!! k))) <$> keys)) with
          | Raised e => Raised e
          | Returned separator =>
              match render_rows tpl keys dicts with
              | Raised e => Raised e
              | Returned rows => Returned ("" :: header :: separator :: rows)
              end
          end
      end
  end.

(** *** The summary parser *)

(** [try: return to_type(val)  except (ValueError, TypeError): return None] *)
Definition _safe_cast {A} (val : option string)
    (to_type : option string -> outcome A) : outcome (option A) :=
  match to_type val with
  | Returned v => Returned (Some v)
  | Raised ValueError | Raised TypeError => Returned None
  | Raised e => Raised e
  end.

(** [bool(s)] for a group: a [str] or [None]. *)
Definition group_truthy (g : option string) : bool :=
  match g with
  | Some s => negb (String.eqb s "")
  | None => false
  end.

Definition _parse_log_line (line : string) : M record :=
  match Re.match_ RESULT_PATTERN line with
  | None =>
      logging ERROR ("impossible to parse results: " +:+ line) ;;
      ret ∅
  | Some m =>
      let fail_match := m !! "failed" in
      failed <- lift (if group_truthy fail_match
                      then _safe_cast fail_match int_ else Returned (Some 0%Z)) ;;
      let success_match := m !! "success" in
      success <- lift (if group_truthy success_match
                       then _safe_cast success_match int_ else Returned (Some 0%Z)) ;;
      time <- lift (_safe_cast (m !! "time") float_) ;;
      duration <- lift (match time with
                        | Some x =>
                            if Float.is_zero x then Returned None
                            else match timedelta_of_seconds x with
                                 | Returned td => Returned (Some td)
                                 | Raised e => Raised e
                                 end
                        | None => Returned None
                        end) ;;
      total <- lift (add_ints failed success) ;;
      ratio <- lift (if negb (total =? 0)%Z
                     then match div_ints success total with
                          | Returned q => Returned (NFloat q)
                          | Raised e => Raised e
                          end
                     else Returned (NInt 0)) ;;
      ratio_text <- lift (format_percent ratio) ;;
      ret ({[ "failed" := int_or_none failed;
              "total" := VInt total;
              "duration" := VStr (match duration with
                                  | Some td => timedelta_str td
                                  | None => "None"
                                  end);
              "ratio" := VStr ratio_text ]} : record)
  end.

(** The line classifier: [RESULT_LINE_PATTERN.match(l)] as a condition. *)
Definition is_banner (l : string) : bool :=
  bool_decide (is_Some (Re.match_ RESULT_LINE_PATTERN l)).

(** The loop of [_get_results] over the lines, last line first. *)
Fixpoint scan_results (res : record) (lines : list string) : M record :=
  match lines with
  | [] => ret res
  | l :: lines' =>
      if negb (is_banner l) then scan_results res lines'
      else
        logging INFO l ;;
        parsed <- _parse_log_line l ;;
        ret (parsed ∪ res)
  end.

Definition _get_results (region category pytest_logs : string) : M record :=
  let res : record := {[ "region" := VStr region; "category" := VStr category ]} in
  scan_results res (reverse (Text.split_on "010" pytest_logs)).

(** *** The tasks *)

Definition dquote : string := String (ascii_of_nat 34) "".
Definition newline : string := String "010" "".

Definition ctx_output_dir : M string :=
  c <- get_ctx ;;
  match output_dir c with
  | Some d => ret d
  | None => raise (AttributeError "output_dir")
  end.

(** The selector that [run_pytest] passes to [-k]: its [if]/[else] on
    [category.get("remaining_tests")]. *)
Definition category_selector (c : context) (cat : category) : outcome string :=
  if default false (cat_remaining_tests cat)
  then Returned (_get_remaining_tests c)
  else match cat_selector cat with
       | Some s => Returned s
       | None => Raised (KeyError "selector")
       end.

Definition run_pytest (env : environment) (url name region : string)
    (cat : category) : M record :=
  _init_output_dir env name ;;
  c <- get_ctx ;;
  let directory := geocoder_sources c +:+ "/geocoder_tester/world/" +:+ region in
  category_name <- match cat_name cat with
                   | Some n => ret n
                   | None => raise (KeyError "name")
                   end ;;
  selector <- lift (category_selector c cat) ;;
  let additional_args := Text.join " " (default [] (additional_pytest_args c)) in
  let test_name := region +:+ "_" +:+ category_name in
  out <- ctx_output_dir ;;
  let report_file := Path.join out (test_name +:+ "_report.txt") in
  let xml_report_file := Path.join out (test_name +:+ "_report.xml") in
  let py_test :=
    Text.join " "
      [ "pytest " +:+ directory;
        "--api-url " +:+ url;
        "-k " +:+ dquote +:+ selector +:+ dquote;
        "--loose-compare";
        "--save-report=" +:+ report_file;
        "--tb=short " +:+ additional_args;
        "--junitxml=" +:+ xml_report_file ] in
  logging INFO ("runnning " +:+ py_test) ;;
  let log_file := Path.join out (test_name +:+ ".log") in
  known <- path_exists (Path.dirname log_file) ;;
  (if negb known then makedirs (Path.dirname log_file) else ret tt) ;;
  emit (RunCommand py_test log_file) ;;
  res <- _get_results region category_name (run_stdout env py_test) ;;
  logging INFO ("result = " +:+ repr_record env res) ;;
  ret res.

Definition REPORT_COLUMN : list string :=
  ["region"; "category"; "failed"; "total"; "ratio"; "duration"].

Definition try_except {A} (body : M A) (handler : exn -> M A) : M A :=
  fun w =>
    match body w with
    | (Raised e, w') => handler e w'
    | r => r
    end.

Definition _get_version (env : environment) (url : string) : M value :=
  if negb (Text.contains "/autocomplete" url) then ret VNone
  else
    let status_url := Text.replace "/autocomplete" "/status" url in
    emit (HttpGet status_url) ;;
    status_resp <- lift (requests_get env status_url) ;;
    try_except
      (lift (raise_for_status status_resp) ;;
       body <- lift (json status_resp) ;;
       match body with
       | Some members => ret (default VNone (members !! "version"))
       | None => raise (AttributeError "get")
       end)
      (fun _ =>
         logging WARNING "Failed to fetch geocoder version" ;;
         ret VNone).

Definition run_all (env : environment) (url : option string) (name : string)
    (regions : option string) : M unit :=
  _init_output_dir env name ;;
  c <- get_ctx ;;
  url <- (if group_truthy url then ret url
          else match cfg_url c with
               | Some u => ret u
               | None => raise (AttributeError "url")
               end) ;;
  match regions with
  | Some r => if negb (String.eqb r "")
              then put_ctx (set_regions (Text.split_on "," r) c) else ret tt
  | None => ret tt
  end ;;
  match url with
  | Some url =>
      if String.eqb url "" then raise (Exception_ "no url provided")
      else
        logging INFO ("testing " +:+ name +:+ " on " +:+ url) ;;
        version <- _get_version env url ;;
        (if truthy version
         then logging INFO ("testing version " +:+ py_str version) else ret tt) ;;
        c <- get_ctx ;;
        per_region <-
          for_each (cfg_regions c) (fun region =>
            c <- get_ctx ;;
            for_each (cfg_categories c) (fun cat =>
              logging INFO ("running tests on " +:+ region +:+ " / "
                            +:+ repr_category env cat) ;;
              run_pytest env url name region cat)) ;;
        let res := concat per_region in
        lines <- lift (_pretty_print res REPORT_COLUMN) ;;
        let report := Text.join newline lines in
        logging INFO report ;;
        out <- ctx_output_dir ;;
        emit (FileWrite (Path.join out "report.log")
                ("report on '" +:+ name +:+ "'" +:+ newline
                 +:+ "queries made on " +:+ url +:+ " | version = "
                 +:+ py_str version +:+ " " +:+ newline
                 +:+ report)) ;;
        emit (FileWrite (Path.join out "report.json")
                (json_dumps env name url version report)) ;;
        let csv_column := REPORT_COLUMN ++ ["directory"; "url"; "name"; "version"] in
        let rows :=
          (fun r : record =>
             ({[ "directory" := VStr out; "url" := VStr url;
                 "name" := VStr name; "version" := version ]} : record) ∪ r) <$> res in
        emit (FileWrite (Path.join out "report.csv") (csv_text env csv_column rows))
  | None => raise (Exception_ "no url provided")
  end.

(** * Specification vocabulary *)

(** ** What a match is

    [matches r u g g']: the pattern [r] can consume exactly the text [u],
    turning the groups [g] into [g'].  This is the declarative reading of
    a pattern, without the priorities of backtracking. *)
Inductive matches : Re.regex -> string -> Re.groups -> Re.groups -> Prop :=
| matches_lit p g :
    matches (Re.Lit p) p g g
| matches_star c u g :
    Text.all_chars (Re.cset_test c) u = true ->
    matches (Re.Star c) u g g
| matches_plus c a u g :
    Text.all_chars (Re.cset_test c) (String a u) = true ->
    matches (Re.Plus c) (String a u) g g
| matches_opt_present r u g g' :
    matches r u g g' ->
    matches (Re.Opt r) u g g'
| matches_opt_absent r g :
    matches (Re.Opt r) "" g g
| matches_group name r u g g' :
    matches r u g g' ->
    matches (Re.Group name r) u g (<[name := u]> g')
| matches_seq r1 r2 u1 u2 g g1 g2 :
    matches r1 u1 g g1 ->
    matches r2 u2 g1 g2 ->
    matches (Re.Seq r1 r2) (u1 +:+ u2) g g2.

(** [s'] is what is left of [s] after some prefix. *)
Definition suffix_of (s' s : string) : Prop := exists u, s = u +:+ s'.

Definition digits (s : string) : Prop :=
  s <> "" /\ Text.all_chars Text.is_digit s = true.

Definition one_line (s : string) : Prop :=
  Text.all_chars (Re.cset_test Re.Any) s = true.

(** A run of digits short enough for [int] to read. *)
Definition readable (ds : string) : Prop :=
  (Z.of_nat (String.length ds) <= int_max_str_digits)%Z.

(** The same of a group, which may be absent. *)
Definition readable_group (g : option string) : Prop :=
  match g with
  | Some ds => readable ds
  | None => True
  end.

#[global] Instance readable_dec ds : Decision (readable ds).
Proof. unfold readable. apply _. Defined.

#[global] Instance readable_group_dec g : Decision (readable_group g).
Proof. destruct g; apply _. Defined.

(** ** What the summary parser computes *)

(** The count a group stands for; an absent group counts for zero. *)
Definition count_of (g : option string) : Z :=
  match g with
  | Some ds => Text.digits_val 0 ds
  | None => 0%Z
  end.

(** The text of the [duration] field for the time text [tm]: ["None"]
    when [tm] is no float or is zero, the printed [timedelta] otherwise;
    building the [timedelta] may raise. *)
Definition duration_text (tm : string) : outcome string :=
  match Float.parse tm with
  | None => Returned "None"
  | Some x =>
      if Float.is_zero x then Returned "None"
      else match timedelta_of_seconds x with
           | Returned td => Returned (timedelta_str td)
           | Raised e => Raised e
           end
  end.

(** [k] seconds written as [H:MM:SS]. *)
Definition clock (k : Z) : string :=
  Text.of_Z (k / 60 / 60) +:+ ":" +:+ Text.zero_pad 2 (k / 60 mod 60)
  +:+ ":" +:+ Text.zero_pad 2 (k mod 60).

(** [pct] is [p / t] printed as a whole percentage, ["0%"] when [t = 0]. *)
Definition percent_text (p t : Z) (pct : string) : Prop :=
  (t = 0%Z /\ pct = "0%")
  \/ (t <> 0%Z
      /\ exists q, int_truediv p t = Returned q /\ pct = Float.format_percent0 q).

(** The record of a parsed summary line. *)
Definition summary (failed total : Z) (duration ratio : string) : record :=
  {[ "failed" := VInt failed;
     "total" := VInt total;
     "duration" := VStr duration;
     "ratio" := VStr ratio ]}.

(** The world after one more log record. *)
Definition logged (l : level) (msg : string) (w : world) : world :=
  World (ctx w) (dirs w) (trace w ++ [Log l msg]).

(** The text [v] does not go on with a character of [c]: a run of [c]
    cannot be made longer into [v]. *)
Definition head_outside (c : Re.cset) (v : string) : bool :=
  match v with
  | String a _ => negb (Re.cset_test c a)
  | EmptyString => true
  end.

(** The characters of a decimal number. *)
Definition numeric (c : ascii) : bool :=
  Text.is_digit c || Ascii.eqb c "." || Ascii.eqb c "e" || Ascii.eqb c "E"
  || Ascii.eqb c "+" || Ascii.eqb c "-".

(** A world in which nothing has happened yet, for worked examples. *)
Definition blank_context : context := Context None [] [] "" "" None None.
Definition blank_world : world := World blank_context ∅ [].

(** An outside world in which the status endpoint cannot be reached. *)
Definition unreachable_status : environment :=
  Environment "2019-03-01T10:00:00" (fun _ => "")
              (fun _ => Raised ConnectionError)
              (fun _ => "") (fun _ => "") (fun _ _ _ _ => "") (fun _ _ => "").

(** A configuration with regions and categories but no URL, before any
    run: no output directory yet, nothing on disk, nothing logged. *)
Definition three_categories : context :=
  Context (Some None) ["fr"]
          [Category (Some "addr") (Some "a") None;
           Category (Some "poi") (Some "b") None;
           Category (Some "rest") None (Some true)]
          "results" "/srv/geocoder-tester" None None.

Definition configured_world : world := World three_categories ∅ [].

(** * Properties *)

(** ** Text *)

Section text_facts.
Implicit Types s u v : string.

Lemma string_app_nil_r s : s +:+ "" = s.
Proof. induction s; simpl; congruence. Qed.

Lemma string_app_assoc s u v : (s +:+ u) +:+ v = s +:+ u +:+ v.
Proof. induction s; simpl; congruence. Qed.

Lemma string_length_app s u : String.length (s +:+ u) = String.length s + String.length u.
Proof. induction s; simpl; auto. Qed.

Lemma take_length_app s u : Text.take (String.length s) (s +:+ u) = s.
Proof. induction s; simpl; [by destruct u | congruence]. Qed.

Lemma take_consumed s u :
  Text.take (String.length (s +:+ u) - String.length u) (s +:+ u) = s.
Proof.
  rewrite string_length_app.
  replace (String.length s + String.length u - String.length u)
    with (String.length s) by lia.
  apply take_length_app.
Qed.

Lemma all_chars_app P s u :
  Text.all_chars P (s +:+ u) = Text.all_chars P s && Text.all_chars P u.
Proof. induction s; simpl; [done | rewrite IHs; by rewrite andb_assoc]. Qed.

Lemma suffix_of_refl s : suffix_of s s.
Proof. by exists "". Qed.

Lemma suffix_of_trans s u v : suffix_of s u -> suffix_of u v -> suffix_of s v.
Proof. intros [a ->] [b ->]. exists (b +:+ a). by rewrite string_app_assoc. Qed.

Lemma suffix_of_cons a s u : suffix_of s u -> suffix_of s (String a u).
Proof. intros [p ->]. by exists (String a p). Qed.

Lemma suffix_of_app s u : suffix_of u (s +:+ u).
Proof. by exists s. Qed.
End text_facts.

(** ** The matcher against the declarative reading *)

Section matcher_facts.
Context {A : Type}.
Implicit Types k : string -> option A.

Lemma lit_sound p s k r :
  Re.lit p s k = Some r -> exists s', s = p +:+ s' /\ k s' = Some r.
Proof.
  revert s; induction p as [|a p IH]; intros s; simpl.
  - eauto.
  - destruct s as [|b s]; [done|].
    destruct (Ascii.eqb a b) eqn:E; [|done].
    apply Ascii.eqb_eq in E as ->.
    intros (s' & -> & ?)%IH. eauto.
Qed.

Lemma star_sound c s k r :
  Re.star c s k = Some r ->
  exists u s', s = u +:+ s'
    /\ Text.all_chars (Re.cset_test c) u = true /\ k s' = Some r.
Proof.
  induction s as [|a s IH]; simpl.
  - intros. by exists "", "".
  - destruct (Re.cset_test c a) eqn:E.
    + destruct (Re.star c s k) eqn:Es.
      * intros [= ->]. destruct (IH eq_refl) as (u & s' & -> & ? & ?).
        exists (String a u), s'. simpl. rewrite E. eauto.
      * intros. by exists "", (String a s).
    + intros. by exists "", (String a s).
Qed.

Lemma plus_sound c s k r :
  Re.plus c s k = Some r ->
  exists a u s', s = String a u +:+ s'
    /\ Text.all_chars (Re.cset_test c) (String a u) = true /\ k s' = Some r.
Proof.
  destruct s as [|a s]; simpl; [done|].
  destruct (Re.cset_test c a) eqn:E; [|done].
  intros (u & s' & -> & ? & ?)%star_sound.
  exists a, u, s'. simpl. rewrite E. eauto.
Qed.
End matcher_facts.

(** Whatever [run] answers is a match in the declarative sense, followed
    by a success of the continuation on what is left. *)
Lemma run_sound r : forall s g k m,
  Re.run r s g k = Some m ->
  exists u s' g', s = u +:+ s' /\ matches r u g g' /\ k s' g' = Some m.
Proof.
  induction r as [p|c|c|r IH|name r IH|r1 IH1 r2 IH2]; intros s g k m; simpl.
  - intros (s' & -> & ?)%lit_sound. exists p, s', g. eauto using matches.
  - intros (u & s' & -> & ? & ?)%star_sound. exists u, s', g. eauto using matches.
  - intros (a & u & s' & -> & ? & ?)%plus_sound.
    exists (String a u), s', g. eauto using matches.
  - destruct (Re.run r s g k) eqn:E.
    + intros [= ->]. apply IH in E as (u & s' & g' & -> & ? & ?).
      exists u, s', g'. eauto using matches.
    + intros. exists "", s, g. eauto using matches.
  - intros (u & s' & g' & -> & ? & Hk)%IH.
    rewrite take_consumed in Hk. exists u, s', (<[name := u]> g').
    eauto using matches.
  - intros (u1 & s1 & g1 & -> & ? & (u2 & s2 & g2 & -> & ? & ?)%IH2)%IH1.
    exists (u1 +:+ u2), s2, g2. rewrite string_app_assoc. eauto using matches.
Qed.

(** The continuation only ever sees suffixes of the subject: when it
    fails on all of them, so does the pattern. *)
Lemma run_fails r s g k :
  (forall s' g', suffix_of s' s -> k s' g' = None) ->
  Re.run r s g k = None.
Proof.
  intros Hk. destruct (Re.run r s g k) as [m|] eqn:E; [|done].
  apply run_sound in E as (u & s' & g' & -> & _ & E).
  rewrite Hk in E; [done | apply suffix_of_app].
Qed.

(** ** The groups of the summary pattern *)

Ltac invert_matches :=
  repeat match goal with
    | H : matches (Re.Seq _ _) _ _ _ |- _ => inversion H; subst; clear H
    | H : matches (Re.Opt _) _ _ _ |- _ => inversion H; subst; clear H
    | H : matches (Re.Group _ _) _ _ _ |- _ => inversion H; subst; clear H
    | H : matches (Re.Lit _) _ _ _ |- _ => inversion H; subst; clear H
    | H : matches (Re.Star _) _ _ _ |- _ => inversion H; subst; clear H
    | H : matches (Re.Plus _) _ _ _ |- _ => inversion H; subst; clear H
    end.

(** A group of [RESULT_PATTERN] that took part in a match holds what its
    sub-pattern consumed: digits for the two counts, one line of text for
    the time. *)
Lemma result_pattern_groups line m :
  Re.match_ RESULT_PATTERN line = Some m ->
  (m !! "failed" = None \/ exists ds, m !! "failed" = Some ds /\ digits ds)
  /\ (m !! "success" = None \/ exists ds, m !! "success" = Some ds /\ digits ds)
  /\ (exists tm, m !! "time" = Some tm /\ one_line tm).
Proof.
  unfold Re.match_. intros (u & s' & g' & -> & Hm & [= ->])%run_sound.
  unfold RESULT_PATTERN in Hm. invert_matches;
    (split; [|split]);
    try (left; by simplify_map_eq);
    try (right; eexists; split; [by simplify_map_eq | by split]);
    try (eexists; split; [by simplify_map_eq | done]).
Qed.

(** ** [int] on a run of digits *)

Ltac ascii_cases c := destruct c as [[|] [|] [|] [|] [|] [|] [|] [|]]; try done.

Lemma digit_not_space c : Text.is_digit c = true -> Float.is_space c = false.
Proof. ascii_cases c. Qed.

Lemma digit_not_underscore c : Text.is_digit c = true -> Ascii.eqb c "_" = false.
Proof. ascii_cases c. Qed.

Lemma digit_val_nonneg c : Text.is_digit c = true -> (0 <= Text.digit_val c)%Z.
Proof. ascii_cases c. Qed.

Lemma rstrip_digits s :
  Text.all_chars Text.is_digit s = true -> Float.rstrip s = s.
Proof.
  induction s as [|c s IH]; simpl; [done|].
  intros [Hc Hs]%andb_prop. rewrite (IH Hs).
  destruct s; [by rewrite (digit_not_space c Hc) | done].
Qed.

Lemma strip_digits s :
  Text.all_chars Text.is_digit s = true -> Float.strip s = s.
Proof.
  intros H. unfold Float.strip.
  destruct s as [|c s]; [done|]. simpl in H |- *.
  apply andb_prop in H as [Hc Hs].
  rewrite (digit_not_space c Hc).
  apply rstrip_digits. simpl. by rewrite Hc, Hs.
Qed.

Lemma drop_underscores_digits prev s :
  Float.prev_is (Ascii.eqb "_") prev = false ->
  Text.all_chars Text.is_digit s = true ->
  Float.drop_underscores prev s = Some s.
Proof.
  revert prev; induction s as [|c s IH]; intros prev Hp; simpl.
  - by rewrite Hp.
  - intros [Hc Hs]%andb_prop. rewrite (digit_not_underscore c Hc), Hp. simpl.
    rewrite IH; [done| |done]. simpl. revert Hc. by ascii_cases c.
Qed.

Lemma span_digits_all s :
  Text.all_chars Text.is_digit s = true -> Float.span_digits s = (s, "").
Proof.
  induction s as [|c s IH]; simpl; [done|].
  intros [-> Hs]%andb_prop. by rewrite (IH Hs).
Qed.

Lemma split_sign_digits s :
  Text.all_chars Text.is_digit s = true -> Float.split_sign s = (false, s).
Proof. destruct s as [|c s]; [done|]. simpl. intros [Hc _]%andb_prop. by ascii_cases c. Qed.

Lemma int_digits ds :
  digits ds -> readable ds -> int_ (Some ds) = Returned (Text.digits_val 0 ds).
Proof.
  intros [Hne Hd] Hr. unfold int_.
  rewrite (strip_digits _ Hd), (drop_underscores_digits None _) by done.
  rewrite (split_sign_digits _ Hd), (span_digits_all _ Hd).
  destruct ds as [|c ds]; [done|]. cbv beta iota.
  apply Z.ltb_ge in Hr. by rewrite Hr.
Qed.

(** More digits than [int] reads are a [ValueError]. *)
Lemma int_unreadable ds :
  digits ds -> ~ readable ds -> int_ (Some ds) = Raised ValueError.
Proof.
  intros [Hne Hd] Hr. unfold int_.
  rewrite (strip_digits _ Hd), (drop_underscores_digits None _) by done.
  rewrite (split_sign_digits _ Hd), (span_digits_all _ Hd).
  destruct ds as [|c ds]; [done|]. cbv beta iota.
  unfold readable in Hr. apply Z.nle_gt, Z.ltb_lt in Hr. by rewrite Hr.
Qed.

Lemma digits_val_nonneg s acc :
  (0 <= acc)%Z -> Text.all_chars Text.is_digit s = true ->
  (0 <= Text.digits_val acc s)%Z.
Proof.
  revert acc; induction s as [|c s IH]; intros acc Hacc; simpl; [done|].
  intros [Hc Hs]%andb_prop. apply IH; [|done].
  pose proof (digit_val_nonneg c Hc). lia.
Qed.

(** ** Rounding: a quotient of at most one is a finite float *)

Section rounding_facts.
Local Open Scope Z_scope.

Lemma digits2_succ p :
  Z.pos (digits2_pos (Pos.succ p)) <= Z.pos (digits2_pos p) + 1.
Proof. induction p; simpl; lia. Qed.

Lemma Zdigits2_nonneg m : 0 <= Zdigits2 m.
Proof. destruct m; simpl; lia. Qed.

Lemma Zdigits2_succ m : 0 <= m -> Zdigits2 (m + 1) <= Zdigits2 m + 1.
Proof.
  destruct m as [|p|p]; simpl; [lia| |lia]. intros _.
  replace (p + 1)%positive with (Pos.succ p) by lia. apply digits2_succ.
Qed.

Lemma digits2_log2 p : Z.pos (digits2_pos p) = Z.log2 (Z.pos p) + 1.
Proof.
  assert (forall q, digits2_pos q = Pos.size q) as E.
  { induction q; simpl; congruence. }
  destruct p; simpl; rewrite ?E; lia.
Qed.

Lemma Zdigits2_le_pow2 m s : 0 <= s -> 0 <= m <= 2 ^ s -> Zdigits2 m <= s + 1.
Proof.
  intros Hs [Hm Hle]. destruct m as [|p|p]; simpl; [lia| |lia].
  rewrite digits2_log2.
  pose proof (Z.log2_le_mono _ _ Hle) as H.
  rewrite Z.log2_pow2 in H by done. lia.
Qed.

(** One halving step takes a digit off the mantissa. *)
Lemma shr_1_digits mrs :
  0 <= shr_m mrs ->
  0 <= shr_m (shr_1 mrs)
  /\ Zdigits2 (shr_m (shr_1 mrs)) = Z.max (Zdigits2 (shr_m mrs) - 1) 0.
Proof.
  destruct mrs as [m r s]. simpl. intros Hm.
  destruct m as [|[p|p|]|]; simpl; lia.
Qed.

Lemma iter_shr_1_digits n : forall mrs,
  0 <= shr_m mrs ->
  0 <= shr_m (SpecFloat.iter_pos shr_1 n mrs)
  /\ Zdigits2 (shr_m (SpecFloat.iter_pos shr_1 n mrs))
     = Z.max (Zdigits2 (shr_m mrs) - Z.pos n) 0.
Proof.
  induction n as [n IH|n IH|]; intros mrs Hm; simpl.
  - destruct (shr_1_digits mrs Hm) as [H1 E1].
    destruct (IH _ H1) as [H2 E2]. destruct (IH _ H2) as [H3 E3].
    split; [done|]. rewrite E3, E2, E1. lia.
  - destruct (IH _ Hm) as [H2 E2]. destruct (IH _ H2) as [H3 E3].
    split; [done|]. rewrite E3, E2. lia.
  - apply shr_1_digits, Hm.
Qed.

Lemma shr_record_of_loc_m m l : shr_m (shr_record_of_loc m l) = m.
Proof. by destruct l as [|[]]. Qed.

(** After [shr_fexp] the exponent is the larger of the old one and the
    canonical one, and no digit is gained. *)
Lemma shr_fexp_bounds m e l mrs' e' :
  0 <= m ->
  shr_fexp Float.prec Float.emax m e l = (mrs', e') ->
  0 <= shr_m mrs'
  /\ e' = Z.max e (fexp Float.prec Float.emax (Zdigits2 m + e))
  /\ (Zdigits2 (shr_m mrs') + e' <= Zdigits2 m + e \/ shr_m mrs' = 0).
Proof.
  intros Hm. unfold shr_fexp, shr.
  destruct (fexp Float.prec Float.emax (Zdigits2 m + e) - e) as [|n|n] eqn:En;
    intros [= <- <-]; rewrite ?shr_record_of_loc_m.
  - split; [done|]. split; lia.
  - destruct (iter_shr_1_digits n (shr_record_of_loc m l)) as [H E].
    { by rewrite shr_record_of_loc_m. }
    rewrite shr_record_of_loc_m in E.
    split; [done|]. split; [lia|].
    destruct (shr_m (SpecFloat.iter_pos shr_1 n (shr_record_of_loc m l))) as [|q|q] eqn:Eq;
      [by right | left | lia].
    rewrite E. simpl in E. lia.
  - split; [done|]. split; lia.
Qed.

Lemma round_nearest_even_bounds m l :
  0 <= m ->
  0 <= round_nearest_even m l
  /\ Zdigits2 (round_nearest_even m l) <= Zdigits2 m + 1.
Proof.
  intros Hm. pose proof (Zdigits2_succ m Hm).
  destruct l as [|[]]; simpl; try destruct (Z.even m); split; lia.
Qed.

(** A rounding whose input is below [2 ^ (emax - 1)] does not overflow. *)
Lemma binary_round_aux_finite sx mx ex lx s :
  0 <= mx ->
  Zdigits2 mx + ex <= Float.emax - 1 ->
  ex <= Float.emax - Float.prec ->
  binary_round_aux Float.prec Float.emax sx mx ex lx <> S754_infinity s.
Proof.
  intros Hm Hd He. unfold binary_round_aux.
  destruct (shr_fexp Float.prec Float.emax mx ex lx) as [mrs' e'] eqn:E1.
  apply shr_fexp_bounds in E1 as (Hm' & -> & Hd'); [|done].
  set (e' := Z.max ex _) in *.
  destruct (round_nearest_even_bounds (shr_m mrs') (loc_of_shr_record mrs') Hm')
    as [Hr Hrd].
  set (m1 := round_nearest_even _ _) in *.
  destruct (shr_fexp Float.prec Float.emax m1 e' loc_Exact) as [mrs'' e''] eqn:E2.
  apply shr_fexp_bounds in E2 as (Hm'' & -> & _); [|done].
  destruct (shr_m mrs'') as [|q|q]; [done| |done].
  assert (Zdigits2 m1 + e' <= Float.emax) as Hb.
  { destruct Hd' as [Hd'|E0].
    - lia.
    - rewrite E0 in Hrd. simpl in Hrd. subst e'.
      unfold fexp, emin, Float.emax, Float.prec in *. lia. }
  assert (Z.max e' (fexp Float.prec Float.emax (Zdigits2 m1 + e'))
          <= Float.emax - Float.prec) as Hle.
  { subst e'. unfold fexp, emin, Float.emax, Float.prec in *. lia. }
  apply Z.leb_le in Hle. by rewrite Hle.
Qed.

Lemma of_ratio_finite neg a b s :
  (a <= b)%positive -> Float.of_ratio neg a b <> S754_infinity s.
Proof.
  intros Hab. unfold Float.of_ratio, SFdiv_core_binary.
  set (e' := Z.min _ _).
  assert (e' <= 0) as He' by (subst e'; lia).
  set (m' := match 0 - 0 - e' with Z.pos _ => Z.shiftl (Z.pos a) (0 - 0 - e') | 0 => Z.pos a | Z.neg _ => 0 end).
  assert (m' = Z.pos a * 2 ^ (- e')) as Em.
  { subst m'. replace (0 - 0 - e') with (- e') by lia.
    destruct (- e') as [|n|n] eqn:En; [lia| |lia].
    by rewrite Z.shiftl_mul_pow2. }
  destruct (Z.div_eucl m' (Z.pos b)) as [q r] eqn:Ediv.
  assert (q = m' / Z.pos b) as Eq by (unfold Z.div; by rewrite Ediv).
  assert (0 <= q <= 2 ^ (- e')) as Hq.
  { subst q. split.
    - apply Z.div_pos; lia.
    - apply Z.div_le_upper_bound; [lia|]. rewrite Em. nia. }
  apply binary_round_aux_finite.
  - lia.
  - pose proof (Zdigits2_le_pow2 q (- e') ltac:(lia) Hq).
    unfold Float.emax. lia.
  - unfold Float.emax, Float.prec. lia.
Qed.
End rounding_facts.

(** ** The summary parser on a line its pattern matches *)

Lemma int_truediv_returns p t :
  (0 <= p <= t)%Z -> (t <> 0)%Z -> exists q, int_truediv p t = Returned q.
Proof.
  intros [Hp Hpt] Ht. destruct t as [|b|b]; [done| |lia].
  destruct p as [|a|a]; [simpl; eauto| |lia].
  simpl. pose proof (of_ratio_finite false a b) as Hfin.
  destruct (Float.of_ratio false a b) eqn:E; eauto.
  exfalso. eapply Hfin; [lia | done].
Qed.

Lemma percent_text_exists p t :
  (0 <= p <= t)%Z -> exists pct, percent_text p t pct.
Proof.
  intros H. destruct (decide (t = 0%Z)) as [->|Ht].
  - exists "0%". by left.
  - destruct (int_truediv_returns p t H Ht) as [q Hq].
    exists (Float.format_percent0 q). right. eauto.
Qed.

Lemma group_count g :
  (g = None \/ exists ds, g = Some ds /\ digits ds) ->
  readable_group g ->
  (if group_truthy g then _safe_cast g int_ else Returned (Some 0%Z))
    = Returned (Some (count_of g))
  /\ (0 <= count_of g)%Z.
Proof.
  intros [->|(ds & -> & Hd)] Hr; [done|].
  pose proof Hd as [Hne Hall]. simpl.
  destruct (String.eqb_spec ds "") as [?|_]; [done|]. simpl.
  unfold _safe_cast. rewrite (int_digits ds Hd Hr).
  split; [done|]. by apply digits_val_nonneg.
Qed.

(** A count of more digits than [int] reads is cast to [None]. *)
Lemma group_uncounted g :
  (g = None \/ exists ds, g = Some ds /\ digits ds) ->
  ~ readable_group g ->
  (if group_truthy g then _safe_cast g int_ else Returned (Some 0%Z))
    = Returned None.
Proof.
  intros [->|(ds & -> & Hd)] Hr; [by destruct Hr|].
  pose proof Hd as [Hne Hall]. simpl.
  destruct (String.eqb_spec ds "") as [?|_]; [done|]. simpl.
  unfold _safe_cast. by rewrite (int_unreadable ds Hd Hr).
Qed.

Lemma group_cast_cases g :
  (g = None \/ exists ds, g = Some ds /\ digits ds) ->
  exists c, (if group_truthy g then _safe_cast g int_ else Returned (Some 0%Z))
            = Returned c.
Proof.
  intros Hg. destruct (decide (readable_group g)) as [Hr|Hr].
  - destruct (group_count g Hg Hr) as [E _]. eauto.
  - rewrite (group_uncounted g Hg Hr). eauto.
Qed.

Lemma parse_matched line m tm :
  Re.match_ RESULT_PATTERN line = Some m ->
  m !! "time" = Some tm ->
  readable_group (m !! "failed") ->
  readable_group (m !! "success") ->
  let f := count_of (m !! "failed") in
  let p := count_of (m !! "success") in
  (0 <= f)%Z /\ (0 <= p)%Z /\
  exists pct, percent_text p (f + p) pct /\
    forall w, _parse_log_line line w =
      (match duration_text tm with
       | Returned dt => Returned (summary f (f + p) dt pct)
       | Raised e => Raised e
       end, w).
Proof.
  intros Hm Htm Hrf Hrp f p.
  destruct (result_pattern_groups line m Hm) as (Hf & Hp & _).
  apply group_count in Hf as [Ef Hf0], Hp as [Ep Hp0]; [|done..].
  fold f in Ef, Hf0. fold p in Ep, Hp0.
  split; [done|]. split; [done|].
  destruct (percent_text_exists p (f + p)) as [pct Hpct]; [lia|].
  exists pct. split; [done|]. intros w.
  unfold _parse_log_line. rewrite Hm.
  unfold bind at 1, lift at 1. rewrite Ef.
  unfold bind at 1, lift at 1. rewrite Ep.
  unfold bind at 1, lift at 1. rewrite Htm.
  unfold duration_text, _safe_cast, float_.
  destruct (Float.parse tm) as [x|]; simpl.
  2: { destruct Hpct as [[E ->]|(Hne & q & Eq & ->)].
       - unfold bind, lift, ret; simpl. by rewrite E.
       - unfold bind, lift, ret; simpl.
         apply Z.eqb_neq in Hne. rewrite Hne. simpl. by rewrite Eq. }
  destruct (Float.is_zero x); simpl.
  { destruct Hpct as [[E ->]|(Hne & q & Eq & ->)].
    - unfold bind, lift, ret; simpl. by rewrite E.
    - unfold bind, lift, ret; simpl.
      apply Z.eqb_neq in Hne. rewrite Hne. simpl. by rewrite Eq. }
  unfold bind at 1, lift at 1.
  destruct (timedelta_of_seconds x) as [td|e]; [|done].
  destruct Hpct as [[E ->]|(Hne & q & Eq & ->)].
  - unfold bind, lift, ret; simpl. by rewrite E.
  - unfold bind, lift, ret; simpl.
    apply Z.eqb_neq in Hne. rewrite Hne. simpl. by rewrite Eq.
Qed.

(** With a count that [int] does not read, [failed + success] is a
    [TypeError], raised once the duration has been built. *)
Lemma parse_uncounted line m tm :
  Re.match_ RESULT_PATTERN line = Some m ->
  m !! "time" = Some tm ->
  ~ (readable_group (m !! "failed") /\ readable_group (m !! "success")) ->
  forall w, _parse_log_line line w =
    (match duration_text tm with
     | Returned dt => Raised TypeError
     | Raised e => Raised e
     end, w).
Proof.
  intros Hm Htm Hr w.
  destruct (result_pattern_groups line m Hm) as (Hf & Hp & _).
  assert (exists cf cp,
            (if group_truthy (m !! "failed")
             then _safe_cast (m !! "failed") int_ else Returned (Some 0%Z))
            = Returned cf
            /\ (if group_truthy (m !! "success")
                then _safe_cast (m !! "success") int_ else Returned (Some 0%Z))
               = Returned cp
            /\ add_ints cf cp = Raised TypeError) as (cf & cp & Ef & Ep & Eadd).
  { destruct (decide (readable_group (m !! "failed"))) as [Hrf|Hrf].
    - destruct (decide (readable_group (m !! "success"))) as [Hrp|Hrp];
        [by destruct Hr|].
      destruct (group_cast_cases _ Hf) as [cf Ef].
      exists cf, None. rewrite (group_uncounted _ Hp Hrp).
      split; [done|]. split; [done|]. by destruct cf.
    - destruct (group_cast_cases _ Hp) as [cp Ep].
      exists None, cp. rewrite (group_uncounted _ Hf Hrf). done. }
  unfold _parse_log_line. rewrite Hm.
  unfold bind at 1, lift at 1. rewrite Ef.
  unfold bind at 1, lift at 1. rewrite Ep.
  unfold bind at 1, lift at 1. rewrite Htm.
  unfold duration_text, _safe_cast, float_.
  destruct (Float.parse tm) as [x|]; simpl.
  2: { unfold bind, lift; simpl. by rewrite Eadd. }
  destruct (Float.is_zero x); simpl.
  { unfold bind, lift; simpl. by rewrite Eadd. }
  unfold bind at 1, lift at 1.
  destruct (timedelta_of_seconds x) as [td|e]; [|done].
  unfold bind, lift; simpl. by rewrite Eadd.
Qed.

(** ** Running the summary pattern on a full summary line *)

Section greedy_facts.
Context {A : Type}.
Implicit Types k : string -> option A.

(** A longer run is preferred: a success after a run stays a success
    when more matching characters come first. *)
Lemma star_longer c u v k r :
  Text.all_chars (Re.cset_test c) u = true ->
  Re.star c v k = Some r ->
  Re.star c (u +:+ v) k = Some r.
Proof.
  induction u as [|a u IH]; simpl; [done|].
  intros [-> Hu]%andb_prop Hv. by rewrite (IH Hu Hv).
Qed.

(** [star] answers nothing when the continuation refuses every suffix. *)
Lemma star_refused c s k :
  (forall s', suffix_of s' s -> k s' = None) -> Re.star c s k = None.
Proof.
  intros Hk. destruct (Re.star c s k) as [r|] eqn:E; [|done].
  apply star_sound in E as (u & s' & -> & _ & E).
  rewrite Hk in E; [done | apply suffix_of_app].
Qed.

Lemma lit_refused p s k : Text.starts_with p s = false -> Re.lit p s k = None.
Proof.
  revert s; induction p as [|a p IH]; intros [|b s]; simpl; try done.
  destruct (Ascii.eqb a b); [apply IH | done].
Qed.

Lemma star_always c s (r : A) : Re.star c s (fun _ => Some r) = Some r.
Proof.
  induction s as [|a s IH]; simpl; [done|].
  destruct (Re.cset_test c a); [by rewrite IH | done].
Qed.
End greedy_facts.

Lemma contains_false_suffix p s s' :
  Text.contains p s = false -> suffix_of s' s -> Text.starts_with p s' = false.
Proof.
  intros H [u ->]. induction u as [|a u IH]; simpl in H.
  - destruct s'; simpl in H; by apply orb_false_elim in H as [? _].
  - apply orb_false_elim in H as [_ H]. by apply IH.
Qed.

Lemma repeat_char_all c n : Text.all_chars (Ascii.eqb c) (Text.repeat_char c n) = true.
Proof. induction n; simpl; [done|]. by rewrite Ascii.eqb_refl. Qed.

Lemma contains_in_equals n : Text.contains "in " (Text.repeat_char "=" n) = false.
Proof. induction n; simpl; [done|]. by rewrite IHn. Qed.

Lemma contains_seconds_equals n :
  Text.contains " seconds" (Text.repeat_char "=" n) = false.
Proof. induction n; simpl; [done|]. by rewrite IHn. Qed.

(** An occurrence of ["in "] in [t] followed by a space and more text is
    already one in [t] followed by a space. *)
Lemma contains_in_before_space t z :
  Text.contains "in " (t +:+ " ") = false ->
  Text.contains "in " z = false ->
  Text.contains "in " (t +:+ " " +:+ z) = false.
Proof.
  intros Ht Hz. induction t as [|c t IH].
  - simpl. by rewrite Hz.
  - change (Text.contains "in " (String c (t +:+ " " +:+ z)) = false).
    change (Text.contains "in " (String c (t +:+ " ")) = false) in Ht.
    cbn [Text.contains] in Ht |- *.
    apply orb_false_elim in Ht as [Hs Ht].
    rewrite (IH Ht), orb_false_r.
    destruct t as [|c2 [|c3 t]]; simpl in Hs |- *; done.
Qed.

Lemma lit_app {A} p s (k : string -> option A) : Re.lit p (p +:+ s) k = k s.
Proof. induction p as [|a p IH]; simpl; [done|]. by rewrite Ascii.eqb_refl. Qed.

Lemma star_here {A} c a v (k : string -> option A) :
  Re.cset_test c a = true ->
  Re.star c v k = None ->
  Re.star c (String a v) k = k (String a v).
Proof. intros Ha Hv. simpl. by rewrite Ha, Hv. Qed.

(** The tail of the pattern: any text, [in ], the time, [ seconds], any
    text.  The time is what stands between the last [in ] and the last
    [ seconds]. *)
Lemma summary_tail_run t n g :
  one_line t ->
  Text.contains "in " (t +:+ " ") = false ->
  Re.run (Re.Star Re.Any ⋅ Re.Lit "in " ⋅ Re.Group "time" (Re.Star Re.Any)
          ⋅ Re.Lit " seconds" ⋅ Re.Star Re.Any)%re
         (" in " +:+ t +:+ " seconds " +:+ Text.repeat_char "=" (3 + n))
         g (fun _ g' => Some g')
  = Some (<[ "time" := t ]> g).
Proof.
  intros Hline Hin.
  cbn [Re.run].
  set (E := Text.repeat_char "=" (3 + n)).
  assert (Text.contains "in " E = false) as HinE by apply contains_in_equals.
  assert (Text.contains " seconds" ("seconds " +:+ E) = false) as HsecE.
  { subst E. simpl. by rewrite contains_seconds_equals. }
  change (" in " +:+ t +:+ " seconds " +:+ E)
    with (" " +:+ String "i" ("n " +:+ t +:+ " " +:+ "seconds " +:+ E)).
  apply star_longer; [done|].
  rewrite star_here; [|done|].
  2: { apply star_refused. intros s' Hs'. apply lit_refused.
       eapply contains_false_suffix; [|exact Hs'].
       simpl. apply contains_in_before_space; [done|].
       simpl. exact HinE. }
  change (String "i" ("n " +:+ t +:+ " " +:+ "seconds " +:+ E))
    with ("in " +:+ t +:+ String " " ("seconds " +:+ E)).
  rewrite lit_app.
  apply star_longer; [done|].
  rewrite star_here; [|done|].
  2: { apply star_refused. intros s' Hs'. apply lit_refused.
       eapply contains_false_suffix; [|exact Hs']. exact HsecE. }
  change (String " " ("seconds " +:+ E)) with (" seconds" +:+ " " +:+ E).
  rewrite lit_app, star_always.
  change (" seconds" +:+ " " +:+ E) with (" seconds " +:+ E).
  by rewrite take_consumed.
Qed.

(** Equations of [run], one pattern constructor at a time. *)
Section run_facts.
Implicit Types (g : Re.groups) (k : string -> Re.groups -> option Re.groups).

Lemma run_seq r1 r2 s g k :
  Re.run (r1 ⋅ r2)%re s g k = Re.run r1 s g (fun s' g' => Re.run r2 s' g' k).
Proof. done. Qed.

Lemma run_lit p s g k : Re.run (Re.Lit p) (p +:+ s) g k = k s g.
Proof. simpl. by rewrite lit_app. Qed.

Lemma star_stop {A} c v (k : string -> option A) :
  head_outside c v = true -> Re.star c v k = k v.
Proof. destruct v as [|a v]; simpl; [done|]. by intros ->%negb_true_iff. Qed.

(** A maximal run of [c*] or [c+] is the first choice. *)
Lemma run_star_longest c u v g k m :
  Text.all_chars (Re.cset_test c) u = true ->
  head_outside c v = true ->
  k v g = Some m ->
  Re.run (Re.Star c) (u +:+ v) g k = Some m.
Proof.
  intros Hu Hv Hk. simpl. apply star_longer; [done|]. by rewrite star_stop.
Qed.

Lemma run_plus_longest c u v g k m :
  u <> "" ->
  Text.all_chars (Re.cset_test c) u = true ->
  head_outside c v = true ->
  k v g = Some m ->
  Re.run (Re.Plus c) (u +:+ v) g k = Some m.
Proof.
  intros Hne Hu Hv Hk. destruct u as [|a u]; [done|].
  simpl in Hu |- *. apply andb_prop in Hu as [-> Hu].
  apply star_longer; [done|]. by rewrite star_stop.
Qed.

Lemma run_group_plus name c u v g k m :
  u <> "" ->
  Text.all_chars (Re.cset_test c) u = true ->
  head_outside c v = true ->
  k v (<[name := u]> g) = Some m ->
  Re.run (Re.Group name (Re.Plus c)) (u +:+ v) g k = Some m.
Proof.
  intros Hne Hu Hv Hk. cbn [Re.run].
  change (Re.run (Re.Plus c) (u +:+ v) g
            (fun s' g' => k s' (<[name := Text.take
               (String.length (u +:+ v) - String.length s') (u +:+ v)]> g'))
          = Some m).
  apply run_plus_longest; try done. by rewrite take_consumed.
Qed.

Lemma run_opt_present r s g k m :
  Re.run r s g k = Some m -> Re.run (Re.Opt r) s g k = Some m.
Proof. simpl. by intros ->. Qed.
End run_facts.

(** On a full summary line the three groups hold the two counts and the
    time as they are written. *)
Lemma result_pattern_run a b df dp t :
  digits df -> digits dp -> one_line t ->
  Text.contains "in " (t +:+ " ") = false ->
  Re.match_ RESULT_PATTERN
    (Text.repeat_char "=" (3 + a) +:+ " " +:+ df +:+ " failed, " +:+ dp
     +:+ " passed in " +:+ t +:+ " seconds " +:+ Text.repeat_char "=" (3 + b))
  = Some (<[ "time" := t ]> (<[ "success" := dp ]> (<[ "failed" := df ]> ∅))).
Proof.
  intros [Hfne Hf] [Hpne Hp] Hline Hin.
  unfold Re.match_, RESULT_PATTERN.
  set (E := Text.repeat_char "=" (3 + b)).
  change (Text.repeat_char "=" (3 + a) +:+ ?x)
    with ("==" +:+ Text.repeat_char "=" (S a) +:+ x).
  rewrite run_seq, run_lit, run_seq.
  apply run_plus_longest; [done | apply repeat_char_all | done |].
  rewrite run_seq. apply run_opt_present.
  rewrite run_seq, run_lit, run_seq.
  change (" failed, " +:+ ?x) with (" failed" +:+ "," +:+ " " +:+ x).
  apply run_group_plus; [done | done | done |].
  rewrite run_lit, run_seq. apply run_opt_present.
  rewrite run_lit, run_seq, run_lit.
  rewrite run_seq. apply run_opt_present.
  rewrite run_seq.
  change (" passed in " +:+ ?x) with (" passed" +:+ " in " +:+ x).
  apply run_group_plus; [done | done | done |].
  rewrite run_lit.
  by apply summary_tail_run.
Qed.

(** ** A text that [float] accepts has no ["in "] in it

    This is what lets the pattern find the time of a summary line: the
    greedy search for [in ] cannot stop inside the number. *)

Section float_text_facts.

Lemma starts_in_has_i s : Text.starts_with "in " s = true ->
  exists s', s = String "i" s'.
Proof.
  destruct s as [|c s]; cbn [Text.starts_with]; [done|].
  intros [Hc _]%andb_prop. apply Ascii.eqb_eq in Hc as <-. eauto.
Qed.

Lemma contains_in_without_i s :
  Text.all_chars (fun c => negb (Ascii.eqb c "i")) s = true ->
  Text.contains "in " s = false.
Proof.
  induction s as [|c s IH]; [done|].
  cbn [Text.all_chars Text.contains Text.starts_with].
  intros [Hc Hs]%andb_prop. rewrite (IH Hs), orb_false_r.
  apply negb_true_iff in Hc.
  destruct (Ascii.eqb_spec "i" c) as [<-|]; [done|done].
Qed.

Lemma space_not_i s :
  Text.all_chars Float.is_space s = true ->
  Text.all_chars (fun c => negb (Ascii.eqb c "i")) s = true.
Proof.
  induction s as [|c s IH]; simpl; [done|].
  intros [Hc Hs]%andb_prop. rewrite (IH Hs), andb_true_r.
  revert Hc. by ascii_cases c.
Qed.

Lemma contains_in_lead l s :
  Text.all_chars Float.is_space l = true ->
  Text.contains "in " s = false ->
  Text.contains "in " (l +:+ s) = false.
Proof.
  intros Hl Hs. induction l as [|c l IH]; [done|].
  simpl in Hl. apply andb_prop in Hl as [Hc Hl].
  change (Text.contains "in " (String c (l +:+ s)) = false).
  cbn [Text.contains Text.starts_with]. rewrite (IH Hl), orb_false_r.
  destruct (Ascii.eqb_spec "i" c) as [<-|]; [done|done].
Qed.

Lemma contains_in_trail c z :
  Text.contains "in " (c +:+ " ") = false ->
  Text.all_chars Float.is_space z = true ->
  Text.contains "in " (c +:+ z +:+ " ") = false.
Proof.
  intros Hc Hz. induction c as [|a c IH].
  - simpl. apply contains_in_without_i.
    rewrite all_chars_app, (space_not_i z Hz). done.
  - change (Text.contains "in " (String a (c +:+ z +:+ " ")) = false).
    change (Text.contains "in " (String a (c +:+ " ")) = false) in Hc.
    cbn [Text.contains] in Hc |- *.
    apply orb_false_elim in Hc as [Hs Hc].
    rewrite (IH Hc), orb_false_r.
    destruct c as [|c2 [|c3 c]];
      cbn [Text.starts_with String.append] in Hs |- *.
    + destruct z as [|w z]; cbn [Text.starts_with String.append].
      * destruct (Ascii.eqb "i" a); done.
      * simpl in Hz. apply andb_prop in Hz as [Hw _].
        destruct (Ascii.eqb_spec "n" w) as [<-|]; [done|].
        by rewrite andb_false_r.
    + rewrite Ascii.eqb_refl in Hs.
      destruct (Ascii.eqb "i" a), (Ascii.eqb "n" c2); done.
    + done.
Qed.

Lemma lstrip_split s :
  exists l, s = l +:+ Float.lstrip s /\ Text.all_chars Float.is_space l = true.
Proof.
  induction s as [|c s (l & E & Hl)]; simpl; [by exists ""|].
  destruct (Float.is_space c) eqn:Hc.
  - exists (String c l). simpl. rewrite Hc, Hl. by rewrite E at 1.
  - by exists "".
Qed.

Lemma rstrip_split s :
  exists z, s = Float.rstrip s +:+ z /\ Text.all_chars Float.is_space z = true.
Proof.
  induction s as [|c s (z & E & Hz)]; simpl; [by exists ""|].
  destruct (Float.rstrip s) as [|c' r] eqn:Er.
  - destruct (Float.is_space c) eqn:Hc.
    + exists (String c z). simpl in *. rewrite Hc, Hz. by rewrite E at 1.
    + exists z. simpl in *. split; [by rewrite E at 1 | done].
  - exists z. simpl in *. split; [by rewrite E at 1 | done].
Qed.

Lemma strip_free t :
  Text.contains "in " (Float.strip t +:+ " ") = false ->
  Text.contains "in " (t +:+ " ") = false.
Proof.
  intros H. destruct (lstrip_split t) as (l & El & Hl).
  destruct (rstrip_split (Float.lstrip t)) as (z & Ez & Hz).
  fold (Float.strip t) in Ez.
  rewrite El, Ez, !string_app_assoc.
  apply contains_in_lead; [done|]. by apply contains_in_trail.
Qed.

Lemma span_digits_split s d r :
  Float.span_digits s = (d, r) ->
  s = d +:+ r /\ Text.all_chars Text.is_digit d = true.
Proof.
  revert d r; induction s as [|c s IH]; intros d r; simpl.
  - by intros [= <- <-].
  - destruct (Text.is_digit c) eqn:Hc.
    + destruct (Float.span_digits s) as [d' r'].
      intros [= <- <-]. destruct (IH _ _ eq_refl) as [-> Hd].
      simpl. by rewrite Hc, Hd.
    + by intros [= <- <-].
Qed.

Lemma digits_numeric s :
  Text.all_chars Text.is_digit s = true -> Text.all_chars numeric s = true.
Proof.
  induction s as [|c s IH]; simpl; [done|].
  intros [Hc Hs]%andb_prop. rewrite (IH Hs). unfold numeric. by rewrite Hc.
Qed.

Lemma split_sign_split s neg body :
  Float.split_sign s = (neg, body) ->
  s = body \/ s = String "+" body \/ s = String "-" body.
Proof.
  destruct s as [|c s]; simpl; [intros [= <- <-]; by left|].
  destruct (Ascii.eqb_spec c "-") as [->|_]; [intros [= <- <-]; auto|].
  destruct (Ascii.eqb_spec c "+") as [->|_]; intros [= <- <-]; auto.
Qed.

Lemma split_sign_numeric s neg body :
  Float.split_sign s = (neg, body) ->
  Text.all_chars numeric body = true -> Text.all_chars numeric s = true.
Proof. intros [->| [->| ->]]%split_sign_split; simpl; by intros ->. Qed.

Lemma exponent_part_numeric r2 (m scale : Z) res :
  match r2 with
  | EmptyString => Some (m, scale)
  | String c r3 =>
      if Ascii.eqb c "e" || Ascii.eqb c "E"
      then
        let '(eneg, r4) := Float.split_sign r3 in
        let '(ed, r5) := Float.span_digits r4 in
        match ed, r5 with
        | String _ _, EmptyString =>
            let ev := Text.digits_val 0 ed in
            Some (m, ((if eneg then - ev else ev) + scale)%Z)
        | _, _ => None
        end
      else None
  end = Some res ->
  Text.all_chars numeric r2 = true.
Proof.
  destruct r2 as [|c r3]; [done|].
  destruct (Ascii.eqb c "e" || Ascii.eqb c "E") eqn:Hc; [|done].
  destruct (Float.split_sign r3) as [eneg r4] eqn:E3.
  destruct (Float.span_digits r4) as [ed r5] eqn:E4.
  apply span_digits_split in E4 as [-> Hed].
  destruct ed as [|c' ed]; [done|]. destruct r5; [|done].
  intros _. simpl.
  rewrite (split_sign_numeric _ _ _ E3).
  - rewrite andb_true_r. unfold numeric.
    apply orb_prop in Hc as [->| ->]; by rewrite ?orb_true_r.
  - rewrite string_app_nil_r. by apply digits_numeric.
Qed.

Lemma parse_decimal_numeric s r :
  Float.parse_decimal s = Some r -> Text.all_chars numeric s = true.
Proof.
  unfold Float.parse_decimal.
  destruct (Float.span_digits s) as [ip r1] eqn:E1.
  apply span_digits_split in E1 as [-> Hip].
  rewrite all_chars_app, (digits_numeric _ Hip). simpl.
  destruct r1 as [|c r0].
  - destruct (_ =? 0)%nat; done.
  - destruct (Ascii.eqb_spec c ".") as [->|_].
    + destruct (Float.span_digits r0) as [fp r2] eqn:E2.
      apply span_digits_split in E2 as [-> Hfp].
      destruct (_ =? 0)%nat; [done|].
      intros H%exponent_part_numeric.
      simpl. by rewrite all_chars_app, (digits_numeric _ Hfp), H.
    + destruct (_ =? 0)%nat; [done|].
      intros H. eapply (exponent_part_numeric (String c r0)). exact H.
Qed.

Lemma numeric_not_i c : numeric c = true -> negb (Ascii.eqb c "i") = true.
Proof. ascii_cases c. Qed.

Lemma all_chars_impl (P Q : ascii -> bool) s :
  (forall c, P c = true -> Q c = true) ->
  Text.all_chars P s = true -> Text.all_chars Q s = true.
Proof.
  intros HPQ. induction s as [|c s IH]; simpl; [done|].
  intros [Hc Hs]%andb_prop. by rewrite (HPQ c Hc), (IH Hs).
Qed.

(** What [drop_underscores] gives back is its argument without the
    underscores. *)
Lemma drop_underscores_chars (P : ascii -> bool) prev s core :
  P "_"%char = true ->
  Float.drop_underscores prev s = Some core ->
  Text.all_chars P core = true -> Text.all_chars P s = true.
Proof.
  intros HP. revert prev core; induction s as [|c s IH]; intros prev core; simpl.
  - done.
  - destruct (Ascii.eqb_spec c "_") as [->|_].
    + destruct (Float.prev_is Text.is_digit prev); [|done].
      intros E Hc. rewrite HP. simpl. by eapply IH.
    + destruct (_ && _); [done|].
      destruct (Float.drop_underscores (Some c) s) as [core'|] eqn:E; [|done].
      simpl. intros [= <-]. simpl. intros [-> Hc]%andb_prop. simpl. by eapply IH.
Qed.

Lemma drop_underscores_same prev s core :
  Float.prev_is Text.is_digit prev = false ->
  Float.drop_underscores prev s = Some core ->
  Text.all_chars (fun c => negb (Text.is_digit c)) core = true ->
  s = core.
Proof.
  revert prev core; induction s as [|c s IH]; intros prev core Hp; simpl.
  - destruct (Float.prev_is (Ascii.eqb "_") prev); [done|]. by intros [= <-].
  - destruct (Ascii.eqb c "_").
    + by rewrite Hp.
    + destruct (_ && _); [done|].
      destruct (Float.drop_underscores (Some c) s) as [core'|] eqn:E; [|done].
      simpl. intros [= <-]. simpl. intros [Hc Hcore]%andb_prop.
      f_equal. eapply IH; [|done..]. simpl. by apply negb_true_iff.
Qed.

Lemma lowercase_app s u :
  Float.lowercase (s +:+ u) = Float.lowercase s +:+ Float.lowercase u.
Proof. induction s; simpl; congruence. Qed.

Lemma contains_in_lowercase s :
  Text.contains "in " s = true -> Text.contains "in " (Float.lowercase s) = true.
Proof.
  induction s as [|c s IH]; [done|].
  cbn [Text.contains Float.lowercase].
  intros [H|H]%orb_prop; [|by rewrite (IH H), orb_true_r].
  apply orb_true_intro; left.
  destruct s as [|c2 [|c3 s]]; cbn [Text.starts_with Float.lowercase] in *.
  - by rewrite andb_false_r in H.
  - by rewrite !andb_false_r in H.
  - apply andb_prop in H as [<-%Ascii.eqb_eq H].
    apply andb_prop in H as [<-%Ascii.eqb_eq H].
    apply andb_prop in H as [<-%Ascii.eqb_eq _]. done.
Qed.

Lemma lower_digit c : Text.is_digit (Float.lower c) = Text.is_digit c.
Proof. ascii_cases c. Qed.

Lemma lowercase_no_digit s :
  Text.all_chars (fun c => negb (Text.is_digit c)) (Float.lowercase s) = true ->
  Text.all_chars (fun c => negb (Text.is_digit c)) s = true.
Proof.
  induction s as [|c s IH]; simpl; [done|].
  rewrite lower_digit. intros [-> Hs]%andb_prop. by rewrite (IH Hs).
Qed.

(** The three special spellings, with a sign if any. *)
Lemma inf_nan_core neg body x core :
  Float.parse_inf_nan neg body = Some x ->
  core = body \/ core = String "+" body \/ core = String "-" body ->
  Text.all_chars (fun c => negb (Text.is_digit c)) core = true
  /\ Text.contains "in " (core +:+ " ") = false.
Proof.
  unfold Float.parse_inf_nan. intros Hx Hcore.
  assert (Float.lowercase body = "inf" \/ Float.lowercase body = "infinity"
          \/ Float.lowercase body = "nan") as Hl.
  { destruct (String.eqb_spec (Float.lowercase body) "inf"); [by left|].
    destruct (String.eqb_spec (Float.lowercase body) "infinity"); [auto|].
    destruct (String.eqb_spec (Float.lowercase body) "nan"); [auto|done]. }
  assert (exists l, Float.lowercase core = l
            /\ Text.all_chars (fun c => negb (Text.is_digit c)) l = true
            /\ Text.contains "in " (l +:+ " ") = false) as (l & El & Hd & Hin).
  { destruct Hcore as [->| [->| ->]]; cbn [Float.lowercase];
      destruct Hl as [->| [->| ->]]; eexists; (split; [reflexivity|]);
      split; reflexivity. }
  split.
  - apply lowercase_no_digit. by rewrite El.
  - destruct (Text.contains "in " (core +:+ " ")) eqn:E; [|done].
    apply contains_in_lowercase in E.
    rewrite lowercase_app, El in E.
    change (Float.lowercase " ") with " " in E. congruence.
Qed.

(** A text that [float] accepts holds no ["in "], not even at its end
    when a space follows. *)
Lemma parse_free t x :
  Float.parse t = Some x -> Text.contains "in " (t +:+ " ") = false.
Proof.
  unfold Float.parse. intros H. apply strip_free.
  destruct (Float.drop_underscores None (Float.strip t)) as [core|] eqn:Ed; [|done].
  destruct (Float.split_sign core) as [neg body] eqn:Es.
  destruct (Float.parse_decimal body) as [[m e]|] eqn:Ep.
  - apply contains_in_without_i. rewrite all_chars_app, andb_true_r.
    eapply drop_underscores_chars; [done | exact Ed |].
    eapply all_chars_impl; [apply numeric_not_i|].
    eapply split_sign_numeric; [exact Es|].
    by eapply parse_decimal_numeric.
  - destruct (inf_nan_core neg body x core H) as [Hd Hin].
    { by eapply split_sign_split. }
    by rewrite (drop_underscores_same None _ core eq_refl Ed Hd).
Qed.
End float_text_facts.

(** ** Whole seconds are exact *)

Section whole_number_facts.
Local Open Scope Z_scope.

Lemma iter_xO_digits p k :
  digits2_pos (Pos.iter xO p k) = (digits2_pos p + k)%positive.
Proof.
  induction k as [|k IH] using Pos.peano_ind.
  - simpl. lia.
  - rewrite Pos.iter_succ. simpl. rewrite IH. lia.
Qed.

Lemma iter_xO_value p k : Z.pos (Pos.iter xO p k) = Z.pos p * 2 ^ Z.pos k.
Proof.
  induction k as [|k IH] using Pos.peano_ind.
  - simpl. lia.
  - rewrite Pos.iter_succ, Pos2Z.inj_xO, IH, Pos2Z.inj_succ, Z.pow_succ_r; lia.
Qed.

(** A mantissa of exactly 53 digits is left alone by the rounding. *)
Lemma binary_round_aux_canonical s m e :
  Z.pos (digits2_pos m) = 53 -> -1074 <= e <= 971 ->
  binary_round_aux Float.prec Float.emax s (Z.pos m) e loc_Exact
  = S754_finite s m e.
Proof.
  intros Hd He. unfold binary_round_aux.
  assert (shr_fexp Float.prec Float.emax (Z.pos m) e loc_Exact
          = ({| shr_m := Z.pos m; shr_r := false; shr_s := false |}, e)) as E.
  { unfold shr_fexp, shr. simpl Zdigits2. rewrite Hd.
    replace (fexp Float.prec Float.emax (53 + e) - e) with 0; [done|].
    unfold fexp, emin, Float.prec, Float.emax. lia. }
  rewrite E. simpl. rewrite E. simpl.
  assert ((e <=? Float.emax - Float.prec) = true) as ->; [|done].
  apply Z.leb_le. unfold Float.prec, Float.emax. lia.
Qed.

(** An integer of at most 53 bits is a float: its integral part is
    itself and nothing is left. *)
Lemma whole_number_float s p :
  Z.pos (digits2_pos p) <= 53 ->
  exists m e,
    binary_round Float.prec Float.emax s p 0 = S754_finite s m e
    /\ Float.modf s m e = (cond_Zopp s (Z.pos p), S754_zero s).
Proof.
  intros Hd. unfold binary_round, shl_align.
  set (d := Z.pos (digits2_pos p)) in *.
  assert (fexp Float.prec Float.emax (d + 0) = d - 53) as ->.
  { unfold fexp, emin, Float.prec, Float.emax. lia. }
  destruct (d - 53 - 0) as [|k|k] eqn:Ek; [|lia|].
  - exists p, 0. split.
    + apply binary_round_aux_canonical; lia.
    + unfold Float.modf. simpl. by rewrite Z.mul_1_r.
  - exists (Pos.iter xO p k), (d - 53). split.
    + apply binary_round_aux_canonical; [|lia].
      rewrite iter_xO_digits. lia.
    + unfold Float.modf.
      assert ((0 <=? d - 53) = false) as -> by (apply Z.leb_gt; lia).
      replace (- (d - 53)) with (Z.pos k) by lia.
      rewrite iter_xO_value, Z.div_mul, Z.mod_mul by lia.
      by destruct s.
Qed.

Lemma timedelta_of_whole_seconds p :
  Z.pos p < 86400 ->
  exists m e,
    Float.of_decimal false (Z.pos p) 0 = S754_finite false m e
    /\ timedelta_of_seconds (S754_finite false m e)
       = Returned (Timedelta 0 (Z.pos p) 0).
Proof.
  intros Hp. unfold Float.of_decimal.
  change (0 <=? 0) with true. cbv iota.
  change (Z.to_pos (10 ^ 0)) with 1%positive. rewrite Pos.mul_1_r.
  destruct (whole_number_float false p) as (m & e & -> & Hmodf).
  { rewrite digits2_log2.
    assert (Z.log2 (Z.pos p) < 17); [|lia].
    apply Z.log2_lt_pow2; lia. }
  exists m, e. split; [done|].
  unfold timedelta_of_seconds. rewrite Hmodf.
  cbn [cond_Zopp].
  change (SFmul Float.prec Float.emax (Float.of_Z 1000000) (S754_zero false))
    with (S754_zero false).
  cbv zeta iota beta.
  rewrite Z.div_mul by lia. rewrite Z.mod_mul by lia.
  rewrite (Z.div_small (Z.pos p)) by lia.
  rewrite (Z.mod_small (Z.pos p)) by lia.
  done.
Qed.
End whole_number_facts.

(** ** What a line must hold for the summary pattern to match *)

Lemma contains_here p z : Text.contains p (p +:+ z) = true.
Proof.
  assert (Text.starts_with p (p +:+ z) = true) as H.
  { induction p as [|a p IH]; simpl; [done|]. by rewrite Ascii.eqb_refl. }
  destruct p; simpl in *; [by destruct z | by rewrite H].
Qed.

Lemma contains_skip p x y : Text.contains p y = true -> Text.contains p (x +:+ y) = true.
Proof.
  intros H. induction x as [|a x IH]; [done|].
  change (Text.contains p (String a (x +:+ y)) = true).
  cbn [Text.contains]. by rewrite IH, orb_true_r.
Qed.

Lemma result_pattern_needs line m :
  Re.match_ RESULT_PATTERN line = Some m ->
  Text.starts_with "===" line = true
  /\ Text.contains "in " line = true
  /\ Text.contains " seconds" line = true.
Proof.
  unfold Re.match_. intros (u & s' & g' & -> & Hm & _)%run_sound.
  unfold RESULT_PATTERN in Hm. invert_matches.
  all: repeat match goal with
         | H : Text.all_chars (Re.cset_test (Re.Chr "=")) (String ?a _) = true |- _ =>
             cbn [Text.all_chars Re.cset_test] in H;
             apply andb_prop in H as [<-%Ascii.eqb_eq _]
         end.
  all: split; [done|].
  all: rewrite !string_app_assoc; split;
         repeat first [apply contains_here | apply contains_skip].
Qed.


(** ** The summary pattern on a line without counts *)

(** The tail of the pattern after any text [pre]: the time is what stands
    between the last [in ] and the last [ seconds], whatever comes first
    on the line. *)
Lemma summary_tail_after pre t n g :
  one_line pre -> one_line t ->
  Text.contains "in " (t +:+ " ") = false ->
  Re.run (Re.Star Re.Any ⋅ Re.Lit "in " ⋅ Re.Group "time" (Re.Star Re.Any)
          ⋅ Re.Lit " seconds" ⋅ Re.Star Re.Any)%re
         (pre +:+ "in " +:+ t +:+ " seconds " +:+ Text.repeat_char "=" (3 + n))
         g (fun _ g' => Some g')
  = Some (<[ "time" := t ]> g).
Proof.
  intros Hpre Hline Hin.
  cbn [Re.run].
  set (E := Text.repeat_char "=" (3 + n)).
  assert (Text.contains "in " E = false) as HinE by apply contains_in_equals.
  assert (Text.contains " seconds" ("seconds " +:+ E) = false) as HsecE.
  { subst E. simpl. by rewrite contains_seconds_equals. }
  apply star_longer; [exact Hpre|].
  change ("in " +:+ t +:+ " seconds " +:+ E)
    with (String "i" ("n " +:+ t +:+ " " +:+ "seconds " +:+ E)).
  rewrite star_here; [|done|].
  2: { apply star_refused. intros s' Hs'. apply lit_refused.
       eapply contains_false_suffix; [|exact Hs'].
       simpl. apply contains_in_before_space; [done|].
       simpl. exact HinE. }
  change (String "i" ("n " +:+ t +:+ " " +:+ "seconds " +:+ E))
    with ("in " +:+ t +:+ String " " ("seconds " +:+ E)).
  rewrite lit_app.
  apply star_longer; [done|].
  rewrite star_here; [|done|].
  2: { apply star_refused. intros s' Hs'. apply lit_refused.
       eapply contains_false_suffix; [|exact Hs']. exact HsecE. }
  change (String " " ("seconds " +:+ E)) with (" seconds" +:+ " " +:+ E).
  rewrite lit_app, star_always.
  change (" seconds" +:+ " " +:+ E) with (" seconds " +:+ E).
  rewrite <- (take_consumed t (" seconds " +:+ E)) at 3.
  done.
Qed.

Lemma run_opt_absent r s g k :
  Re.run r s g k = None -> Re.run (Re.Opt r) s g k = k s g.
Proof. simpl. by intros ->. Qed.

Lemma starts_with_app p u z :
  Text.starts_with p u = true -> Text.starts_with p (u +:+ z) = true.
Proof.
  revert u. induction p as [|a p IH]; intros [|b u]; simpl; try done.
  intros [-> H]%andb_prop. by apply IH.
Qed.

Lemma contains_app_l p u z :
  Text.contains p u = true -> Text.contains p (u +:+ z) = true.
Proof.
  induction u as [|a u IH].
  - destruct p; [by destruct z | done].
  - change (Text.starts_with p (String a u) || Text.contains p u = true
            -> Text.starts_with p (String a u +:+ z)
               || Text.contains p (u +:+ z) = true).
    intros [H|H]%orb_prop.
    + by rewrite (starts_with_app _ _ z H).
    + by rewrite (IH H), orb_true_r.
Qed.

Lemma contains_app_r p x y :
  Text.contains p (x +:+ y) = false -> Text.contains p y = false.
Proof.
  intros H. destruct (Text.contains p y) eqn:E; [|done].
  by rewrite (contains_skip p x y E) in H.
Qed.

(** A pattern whose every match holds [word] finds nothing to match at
    the start of a text that does not hold it. *)
Lemma run_needs_word r word s g k :
  (forall u g1 g2, matches r u g1 g2 -> Text.contains word u = true) ->
  Text.contains word s = false ->
  Re.run r s g k = None.
Proof.
  intros Hr Hs. destruct (Re.run r s g k) as [m|] eqn:E; [|done].
  apply run_sound in E as (u & s' & g' & -> & Hu & _).
  apply Hr in Hu. by rewrite (contains_app_l _ _ s' Hu) in Hs.
Qed.

Lemma failed_clause_word u g1 g2 :
  matches (Re.Lit " " ⋅ Re.Group "failed" (Re.Plus Re.Digit) ⋅ Re.Lit " failed")%re
          u g1 g2 ->
  Text.contains " failed" u = true.
Proof.
  intros H. invert_matches.
  apply (contains_skip " failed" " "), contains_skip.
  destruct (" failed") eqn:E; [done|]. rewrite <- E.
  apply (contains_here " failed" "").
Qed.

Lemma success_clause_word u g1 g2 :
  matches (Re.Group "success" (Re.Plus Re.Digit) ⋅ Re.Lit " passed")%re u g1 g2 ->
  Text.contains " passed" u = true.
Proof.
  intros H. invert_matches. apply contains_skip.
  apply (contains_here " passed" "").
Qed.

(** A count took part in the match only if its word is on the line. *)
Lemma groups_need_clause line m :
  Re.match_ RESULT_PATTERN line = Some m ->
  (Text.contains " failed" line = false -> m !! "failed" = None)
  /\ (Text.contains " passed" line = false -> m !! "success" = None).
Proof.
  unfold Re.match_. intros (u & s' & g' & -> & Hm & [= ->])%run_sound.
  unfold RESULT_PATTERN in Hm. invert_matches.
  all: split; intros Hw; try (by simplify_map_eq).
  all: exfalso; apply not_true_iff_false in Hw; apply Hw.
  all: rewrite ?string_app_assoc;
       repeat first [apply contains_here | apply contains_skip].
Qed.

(** A line that holds neither word: the clauses are passed over, and the
    time is read. *)
Lemma result_pattern_plain a b pre t :
  one_line pre -> one_line t ->
  Text.contains "in " (t +:+ " ") = false ->
  let line := Text.repeat_char "=" (3 + a) +:+ " " +:+ pre +:+ "in " +:+ t
              +:+ " seconds " +:+ Text.repeat_char "=" (3 + b) in
  Text.contains " failed" line = false ->
  Text.contains " passed" line = false ->
  Re.match_ RESULT_PATTERN line = Some {[ "time" := t ]}.
Proof.
  intros Hpre Hline Hin line Hf Hp. subst line.
  unfold Re.match_, RESULT_PATTERN.
  set (E := Text.repeat_char "=" (3 + b)) in *.
  change (Text.repeat_char "=" (3 + a) +:+ ?x)
    with ("==" +:+ Text.repeat_char "=" (S a) +:+ x) in Hf, Hp |- *.
  apply (contains_app_r _ "==") , contains_app_r in Hf.
  apply (contains_app_r _ "=="), contains_app_r, (contains_app_r _ " ") in Hp.
  rewrite run_seq, run_lit, run_seq.
  apply run_plus_longest; [done | apply repeat_char_all | done |].
  rewrite run_seq.
  rewrite run_opt_absent by (apply (run_needs_word _ " failed");
                             [apply failed_clause_word | exact Hf]).
  rewrite run_seq, run_opt_absent by done.
  rewrite run_seq, run_lit, run_seq.
  rewrite run_opt_absent by (apply (run_needs_word _ " passed");
                             [apply success_clause_word | exact Hp]).
  by apply summary_tail_after.
Qed.
(** ** The claims about the summary parser *)

(** C3 (amended).  For every input line that the parser's pattern does not
    match — in particular every line that does not begin with three [=]
    signs, or holds no [in ], or holds no [ seconds] — the Summary Parser
    returns an empty result, logs one error, and raises nothing. *)
Theorem parse_unmatched_line line w :
  Text.starts_with "===" line = false
  \/ Text.contains "in " line = false
  \/ Text.contains " seconds" line = false
  \/ Re.match_ RESULT_PATTERN line = None ->
  _parse_log_line line w
  = (Returned ∅, logged ERROR ("impossible to parse results: " +:+ line) w).
Proof.
  intros H.
  assert (Re.match_ RESULT_PATTERN line = None) as E.
  { destruct (Re.match_ RESULT_PATTERN line) as [m|] eqn:E; [|done].
    destruct (result_pattern_needs line m E) as (H1 & H2 & H3).
    destruct H as [H| [H| [H|H]]]; congruence. }
  unfold _parse_log_line. by rewrite E.
Qed.

Lemma parse_unmatched_line_witness :
  _parse_log_line "collected 12 items" blank_world
  = (Returned ∅, logged ERROR "impossible to parse results: collected 12 items" blank_world).
Proof. apply (parse_unmatched_line "collected 12 items" blank_world). left. reflexivity. Defined.

(** C3 as stated fails: a banner line whose seconds are no number, and a
    line that is no banner, both parse to a full record with nothing
    logged, not to an empty result with an error logged. *)
Lemma parse_unmatched_line_counterexample :
  (is_banner "===== 1 passed in abc seconds =====" = true
   /\ float_ (Some "abc") = Raised ValueError
   /\ _parse_log_line "===== 1 passed in abc seconds =====" blank_world
      = (Returned (summary 0 1 "None" "100%"), blank_world)
   /\ _parse_log_line "===== 1 passed in abc seconds =====" blank_world
      <> (Returned ∅,
          logged ERROR "impossible to parse results: ===== 1 passed in abc seconds ====="
                 blank_world))
  /\ (is_banner "=== in 1 seconds" = false
      /\ _parse_log_line "=== in 1 seconds" blank_world
         = (Returned (summary 0 0 "0:00:01" "0%"), blank_world)
      /\ _parse_log_line "=== in 1 seconds" blank_world
         <> (Returned ∅,
             logged ERROR "impossible to parse results: === in 1 seconds" blank_world)).
Proof.
  split; [split; [|split; [|split]] | split; [|split]];
    try reflexivity; intros [= _ H]; discriminate H.
Qed.

(** C1 (amended).  For every summary line of the shape
    [===+ <f> failed, <p> passed in <t> seconds ===+] with [f] and [p]
    written in digits, at most 4300 of them each, and a one-line [t] that
    [float] accepts and whose value is zero or a duration [timedelta] can
    hold, the Summary Parser returns a result whose [total] is [f + p],
    whose [failed] is [f], and whose [ratio] is the float [p / (f + p)]
    printed as a whole percentage, ["0%"] when the total is zero. *)
Theorem parse_full_summary_line a b df dp t x dt :
  digits df -> digits dp -> readable df -> readable dp -> one_line t ->
  Float.parse t = Some x ->
  duration_text t = Returned dt ->
  let f := Text.digits_val 0 df in
  let p := Text.digits_val 0 dp in
  exists pct, percent_text p (f + p) pct /\
    forall w,
      _parse_log_line
        (Text.repeat_char "=" (3 + a) +:+ " " +:+ df +:+ " failed, " +:+ dp
         +:+ " passed in " +:+ t +:+ " seconds " +:+ Text.repeat_char "=" (3 + b)) w
      = (Returned (summary f (f + p) dt pct), w).
Proof.
  intros Hf Hp Hrf Hrp Hline Hx Hdt f p.
  pose proof (result_pattern_run a b df dp t Hf Hp Hline (parse_free t x Hx)) as Hm.
  set (line := _ +:+ _) in *.
  destruct (parse_matched line _ t Hm) as (_ & _ & pct & Hpct & Hparse).
  { by simplify_map_eq. }
  { by simplify_map_eq. }
  { by simplify_map_eq. }
  simplify_map_eq. exists pct. split; [done|].
  intros w. rewrite Hparse, Hdt. done.
Qed.

Lemma parse_full_summary_line_witness :
  percent_text 1 3 "33%"
  /\ forall w,
       _parse_log_line "===== 2 failed, 1 passed in 12.34 seconds =====" w
       = (Returned (summary 2 3 "0:00:12.340000" "33%"), w).
Proof.
  destruct (parse_full_summary_line 2 2 "2" "1" "12.34"
              (Float.of_decimal false 1234 (-2)) "0:00:12.340000")
    as (pct & Hpct & Hparse);
    [done | done | by vm_compute | by vm_compute
     | reflexivity | reflexivity | reflexivity |].
  assert (pct = "33%") as ->.
  { destruct Hpct as [[H _]|(_ & q & Hq & ->)]; [discriminate H|].
    injection Hq as <-. reflexivity. }
  split; [|exact Hparse].
  right. split; [discriminate|]. eexists. split; reflexivity.
Defined.

Lemma repeat_char_digits c n :
  Text.is_digit c = true ->
  Text.all_chars Text.is_digit (Text.repeat_char c n) = true.
Proof. intros Hc. induction n; simpl; [done|]. by rewrite Hc. Qed.

(** C1 as stated fails: ["inf"] and ["86400000000000"] (a thousand
    million days) are texts that [float] accepts, and the parser raises
    on them instead of returning a result; and so it does on a count of
    4301 digits, which [int] does not read. *)
Lemma parse_full_summary_line_counterexample :
  (float_ (Some "inf") = Returned (S754_infinity false)
   /\ _parse_log_line "===== 1 failed, 1 passed in inf seconds =====" blank_world
      = (Raised OverflowError, blank_world)
   /\ ~ (exists d w,
           _parse_log_line "===== 1 failed, 1 passed in inf seconds =====" blank_world
           = (Returned d, w)))
  /\ (float_ (Some "86400000000000") = Returned (Float.of_Z 86400000000000)
      /\ _parse_log_line "===== 1 failed, 1 passed in 86400000000000 seconds ====="
                         blank_world
         = (Raised OverflowError, blank_world))
  /\ (int_ (Some (Text.repeat_char "9" 4301)) = Raised ValueError
      /\ _parse_log_line
           ("===== 1 failed, " +:+ Text.repeat_char "9" 4301
            +:+ " passed in 1 seconds =====") blank_world
         = (Raised TypeError, blank_world)).
Proof.
  split; [split; [reflexivity|]; split; [reflexivity|] |].
  { intros (d & w & H). discriminate H. }
  split; [split; reflexivity|].
  set (nines := Text.repeat_char "9" 4301).
  assert (digits nines) as Hd.
  { split; [done | by apply repeat_char_digits]. }
  assert (~ readable nines) as Hr.
  { intros H. vm_compute in H. by apply H. }
  split; [by apply int_unreadable|].
  pose proof (result_pattern_run 2 2 "1" nines "1" ltac:(done) Hd ltac:(done)
                ltac:(done)) as Hm.
  clearbody nines.
  rewrite (parse_uncounted _ _ "1" Hm).
  - done.
  - by simplify_map_eq.
  - intros [_ H]. by simplify_map_eq.
Qed.

(** C9 (amended).  A line that the pattern matches and that holds
    neither [ failed] nor [ passed] - no failed clause and no passed
    clause - parses to [failed = 0], [total = 0], [ratio = "0%"], when its
    seconds text is no number, is zero, or is a duration [timedelta] can
    hold.  Such are the lines [===+ <text> in <t> seconds ===+] with
    neither word in them and a [t] that [float] accepts, as
    [===== no tests ran in 1 seconds =====] and
    [===== 1 deselected in 1 seconds =====]. *)
Theorem parse_no_counts :
  (forall line m tm dt,
     Re.match_ RESULT_PATTERN line = Some m ->
     Text.contains " failed" line = false ->
     Text.contains " passed" line = false ->
     m !! "time" = Some tm ->
     duration_text tm = Returned dt ->
     forall w, _parse_log_line line w = (Returned (summary 0 0 dt "0%"), w))
  /\ (forall a b pre t x dt,
        one_line pre -> one_line t ->
        Float.parse t = Some x ->
        duration_text t = Returned dt ->
        let line := Text.repeat_char "=" (3 + a) +:+ " " +:+ pre +:+ "in " +:+ t
                    +:+ " seconds " +:+ Text.repeat_char "=" (3 + b) in
        Text.contains " failed" line = false ->
        Text.contains " passed" line = false ->
        forall w, _parse_log_line line w = (Returned (summary 0 0 dt "0%"), w)).
Proof.
  assert (forall line m tm dt,
            Re.match_ RESULT_PATTERN line = Some m ->
            Text.contains " failed" line = false ->
            Text.contains " passed" line = false ->
            m !! "time" = Some tm ->
            duration_text tm = Returned dt ->
            forall w, _parse_log_line line w = (Returned (summary 0 0 dt "0%"), w))
    as Hgen.
  { intros line m tm dt Hm Hnf Hnp Htm Hdt w.
    destruct (groups_need_clause line m Hm) as [Hf Hp].
    specialize (Hf Hnf). specialize (Hp Hnp).
    destruct (parse_matched line m tm Hm Htm) as (_ & _ & pct & Hpct & Hparse);
      [by rewrite Hf | by rewrite Hp |].
    rewrite Hf, Hp in Hpct, Hparse. simpl in Hpct, Hparse.
    rewrite Hparse, Hdt.
    destruct Hpct as [[_ ->]|[? _]]; done. }
  split; [exact Hgen|].
  intros a b pre t x dt Hpre Hline Hx Hdt line Hnf Hnp w.
  apply (Hgen line {[ "time" := t ]} t dt); try done.
  by apply result_pattern_plain; [| |apply (parse_free t x)|..].
Qed.

Lemma parse_no_counts_witness :
  (forall w, _parse_log_line "===== no tests ran in 1 seconds =====" w
             = (Returned (summary 0 0 "0:00:01" "0%"), w))
  /\ (forall w, _parse_log_line "===== 1 deselected in 1 seconds =====" w
                = (Returned (summary 0 0 "0:00:01" "0%"), w)).
Proof.
  destruct parse_no_counts as [_ H]. split.
  - apply (H 2 2 "no tests ran " "1" (Float.of_Z 1) "0:00:01"); reflexivity.
  - apply (H 2 2 "1 deselected " "1" (Float.of_Z 1) "0:00:01"); reflexivity.
Defined.

(** C9 as stated fails: with neither clause present and an
    [in <t> seconds] clause whose [t] is [inf], the parser raises and no
    record is returned. *)
Lemma parse_no_counts_counterexample :
  Text.contains " failed" "===== no tests ran in inf seconds =====" = false
  /\ Text.contains " passed" "===== no tests ran in inf seconds =====" = false
  /\ Re.match_ RESULT_PATTERN "===== no tests ran in inf seconds ====="
     = Some {[ "time" := "inf" ]}
  /\ _parse_log_line "===== no tests ran in inf seconds =====" blank_world
     = (Raised OverflowError, blank_world)
  /\ ~ (exists d w,
          _parse_log_line "===== no tests ran in inf seconds =====" blank_world
          = (Returned d, w)).
Proof.
  split; [reflexivity|]. split; [reflexivity|].
  split; [reflexivity|]. split; [reflexivity|].
  intros (d & w & H). discriminate H.
Qed.

Lemma parse_digits ds :
  digits ds -> Float.parse ds = Some (Float.of_decimal false (Text.digits_val 0 ds) 0).
Proof.
  intros [Hne Hd]. unfold Float.parse.
  rewrite (strip_digits _ Hd), (drop_underscores_digits None _) by done.
  rewrite (split_sign_digits _ Hd). unfold Float.parse_decimal.
  rewrite (span_digits_all _ Hd). simpl.
  destruct ds as [|c ds]; [done|]. done.
Qed.

Lemma of_Z_whole p : Float.of_Z (Z.pos p) = Float.of_decimal false (Z.pos p) 0.
Proof.
  unfold Float.of_Z, Float.of_decimal, binary_normalize. cbn [Z.leb Z.compare].
  change (Z.to_pos (10 ^ 0)) with 1%positive. by rewrite Pos.mul_1_r.
Qed.

(** A float that is a whole number of seconds below one day. *)
Lemma duration_text_whole tm k :
  Float.parse tm = Some (Float.of_Z k) -> (1 <= k < 86400)%Z ->
  duration_text tm = Returned (clock k).
Proof.
  intros Hx Hk. unfold duration_text. rewrite Hx.
  destruct k as [|p|p]; [lia| |lia]. rewrite of_Z_whole.
  destruct (timedelta_of_whole_seconds p) as (mz & ez & -> & ->); [lia|].
  cbn [Float.is_zero]. unfold timedelta_str. cbn [seconds days microseconds].
  done.
Qed.

(** C4 (amended).  For every summary line that matches the parser's
    pattern, a result that the parser returns always has a [duration]
    field, and the parser does return one when each count has at most
    4300 digits and the duration can be built.  When the captured seconds
    text fails to parse as a float the field is the text ["None"], not
    absent; when it is a float equal to a whole number of seconds from 1
    to 86399, however it is written, the field is that number as
    [H:MM:SS]. *)
Theorem parse_duration_field line m tm :
  Re.match_ RESULT_PATTERN line = Some m ->
  m !! "time" = Some tm ->
  (forall w d w',
     _parse_log_line line w = (Returned d, w') ->
     exists dt, duration_text tm = Returned dt
                /\ d !! "duration" = Some (VStr dt))
  /\ (forall w dt,
        readable_group (m !! "failed") -> readable_group (m !! "success") ->
        duration_text tm = Returned dt ->
        exists d, _parse_log_line line w = (Returned d, w)
                  /\ d !! "duration" = Some (VStr dt))
  /\ (float_ (Some tm) = Raised ValueError -> duration_text tm = Returned "None")
  /\ (forall k, Float.parse tm = Some (Float.of_Z k) -> (1 <= k < 86400)%Z ->
        duration_text tm = Returned (clock k)).
Proof.
  intros Hm Htm.
  assert (forall w dt,
            readable_group (m !! "failed") -> readable_group (m !! "success") ->
            duration_text tm = Returned dt ->
            exists d, _parse_log_line line w = (Returned d, w)
                      /\ d !! "duration" = Some (VStr dt)) as Hret.
  { intros w dt Hrf Hrp Hdt.
    destruct (parse_matched line m tm Hm Htm Hrf Hrp) as (_ & _ & pct & _ & Hparse).
    rewrite Hparse, Hdt. eexists. split; [done|]. unfold summary.
    by simplify_map_eq. }
  split; [|split; [exact Hret|split]].
  - intros w d w' H.
    destruct (decide (readable_group (m !! "failed")
                      /\ readable_group (m !! "success"))) as [[Hrf Hrp]|Hr].
    + destruct (duration_text tm) as [dt|e] eqn:Hdt.
      * destruct (Hret w dt Hrf Hrp eq_refl) as (d' & Hd' & Hdur).
        rewrite Hd' in H. injection H as <- <-. eauto.
      * destruct (parse_matched line m tm Hm Htm Hrf Hrp)
          as (_ & _ & pct & _ & Hparse).
        rewrite Hparse, Hdt in H. discriminate H.
    + rewrite (parse_uncounted line m tm Hm Htm Hr) in H.
      destruct (duration_text tm); discriminate H.
  - unfold float_, duration_text. by destruct (Float.parse tm).
  - intros k. apply duration_text_whole.
Qed.

Lemma parse_duration_field_witness :
  (forall w, exists d,
     _parse_log_line "===== 3 passed in 75.00 seconds =====" w = (Returned d, w)
     /\ d !! "duration" = Some (VStr "0:01:15"))
  /\ duration_text "75.00" = Returned (clock 75).
Proof.
  destruct (parse_duration_field "===== 3 passed in 75.00 seconds ====="
              {[ "success" := "3"; "time" := "75.00" ]} "75.00")
    as (_ & H2 & _ & H4); [reflexivity | reflexivity |].
  split.
  - intros w. apply (H2 w "0:01:15"); [done | by vm_compute | reflexivity].
  - apply (H4 75%Z); [reflexivity | lia].
Defined.

(** C4 as stated fails: on a line whose seconds text is no float the
    [duration] field is present, not absent, and holds the text ["None"];
    and a seconds text of zero, which is a float, is not rendered as a
    duration. *)
Lemma parse_duration_field_counterexample :
  (float_ (Some "abc") = Raised ValueError
   /\ exists d,
        _parse_log_line "===== 1 passed in abc seconds =====" blank_world
        = (Returned d, blank_world)
        /\ d !! "duration" = Some (VStr "None")
        /\ d !! "duration" <> None)
  /\ (exists d,
        _parse_log_line "===== 1 passed in 0.00 seconds =====" blank_world
        = (Returned d, blank_world)
        /\ d !! "duration" = Some (VStr "None")).
Proof.
  split; [split; [reflexivity|] |];
    exists (summary 0 1 "None" "100%"); repeat split; try reflexivity.
  discriminate.
Qed.

(** ** The result extractor *)

Lemma scan_results_skip res skipped rest :
  Forall (fun l => is_banner l = false) skipped ->
  scan_results res (skipped ++ rest) = scan_results res rest.
Proof.
  induction 1 as [|l skipped Hl _ IH]; [done|].
  simpl. by rewrite Hl.
Qed.

(** C2.  The Result Extractor scans the lines of the output from the last
    one backward.  The first line of that scan that the Line Classifier
    accepts — the last banner of the output — is logged, parsed, and its
    fields merged into [{region, category}]; the banners before it are
    ignored.  If no line is a banner, the record is exactly
    [{region, category}]. *)
Theorem get_results_last_banner region category pytest_logs :
  let res : record := {[ "region" := VStr region; "category" := VStr category ]} in
  (forall before l after w,
     Text.split_on "010" pytest_logs = before ++ l :: after ->
     is_banner l = true ->
     Forall (fun x => is_banner x = false) after ->
     _get_results region category pytest_logs w
     = match _parse_log_line l (logged INFO l w) with
       | (Returned parsed, w') => (Returned (parsed ∪ res), w')
       | (Raised e, w') => (Raised e, w')
       end)
  /\ (forall w,
        Forall (fun x => is_banner x = false) (Text.split_on "010" pytest_logs) ->
        _get_results region category pytest_logs w = (Returned res, w)).
Proof.
  intros res. split.
  - intros before l after w Hsplit Hl Hafter.
    unfold _get_results. fold res.
    rewrite Hsplit, reverse_app, reverse_cons, <- app_assoc.
    rewrite scan_results_skip by by apply Forall_reverse.
    simpl. rewrite Hl. simpl.
    unfold bind, logging, emit, ret, logged.
    by destruct (_parse_log_line l _) as [[parsed|e] w'].
  - intros w Hnone. unfold _get_results. fold res.
    rewrite <- (app_nil_r (reverse _)).
    rewrite scan_results_skip by by apply Forall_reverse.
    done.
Qed.

Lemma get_results_last_banner_witness :
  _get_results "fr" "poi"
    "==== test session starts ====
collected 3 items
==== 1 failed, 2 passed in 3 seconds ====
bye" blank_world
  = (Returned ({[ "failed" := VInt 1; "total" := VInt 3;
                  "duration" := VStr "0:00:03"; "ratio" := VStr "67%" ]}
               ∪ {[ "region" := VStr "fr"; "category" := VStr "poi" ]}),
     logged INFO "==== 1 failed, 2 passed in 3 seconds ====" blank_world)
  /\ _get_results "fr" "poi" "no banner
at all" blank_world
     = (Returned {[ "region" := VStr "fr"; "category" := VStr "poi" ]}, blank_world).
Proof.
  destruct (get_results_last_banner "fr" "poi"
    "==== test session starts ====
collected 3 items
==== 1 failed, 2 passed in 3 seconds ====
bye") as [H _].
  destruct (get_results_last_banner "fr" "poi" "no banner
at all") as [_ H'].
  split.
  - rewrite (H ["==== test session starts ===="; "collected 3 items"]
               "==== 1 failed, 2 passed in 3 seconds ====" ["bye"] blank_world);
      [reflexivity | reflexivity | reflexivity |].
    repeat constructor.
  - apply H'. repeat constructor.
Defined.

(** ** The orchestrator *)

(** The request for the version is made outside the [try]: an exception
    of [requests.get] leaves [_get_version] as it is, and no warning is
    logged. *)
Lemma get_version_request_fails env url e w :
  Text.contains "/autocomplete" url = true ->
  requests_get env (Text.replace "/autocomplete" "/status" url) = Raised e ->
  _get_version env url w
  = (Raised e,
     World (ctx w) (dirs w)
           (trace w ++ [HttpGet (Text.replace "/autocomplete" "/status" url)])).
Proof.
  intros Hc Hget. unfold _get_version. rewrite Hc. simpl.
  unfold bind, emit, lift. simpl. by rewrite Hget.
Qed.

(** What the [try] does cover: a bad status or an unreadable body is
    logged as a warning and gives no version. *)
Lemma get_version_bad_answer env url resp w :
  Text.contains "/autocomplete" url = true ->
  requests_get env (Text.replace "/autocomplete" "/status" url) = Returned resp ->
  (exists e, raise_for_status resp = Raised e)
  \/ (exists e, json resp = Raised e) \/ json resp = Returned None ->
  _get_version env url w
  = (Returned VNone,
     World (ctx w) (dirs w)
           (trace w ++ [HttpGet (Text.replace "/autocomplete" "/status" url)]
                   ++ [Log WARNING "Failed to fetch geocoder version"])).
Proof.
  intros Hc Hget Hbad. unfold _get_version. rewrite Hc. simpl.
  unfold bind, emit, lift, try_except, logging, emit, ret, raise. simpl.
  rewrite Hget.
  destruct (raise_for_status resp) as [[]|e1] eqn:E1;
    destruct (json resp) as [[members|]|e2] eqn:E2; simpl;
    rewrite <- ?app_assoc; try done;
    destruct Hbad as [[e He]|[[e He]|He]]; congruence.
Qed.

(** C5 (the code departs from the claim).  With the status endpoint
    unreachable, [requests.get] raises before the [try] is entered: the
    exception leaves [_get_version], no warning is logged, and [run_all]
    is aborted by it. *)
Theorem get_version_unreachable_escapes :
  _get_version unreachable_status "http://mimir:7000/autocomplete" blank_world
  = (Raised ConnectionError,
     World blank_context ∅ [HttpGet "http://mimir:7000/status"])
  /\ (run_all unreachable_status (Some "http://mimir:7000/autocomplete")
              "geocoder-tester" None configured_world).1 = Raised ConnectionError
  /\ trace (run_all unreachable_status (Some "http://mimir:7000/autocomplete")
                    "geocoder-tester" None configured_world).2
     = [MakeDirs "results/geocoder-tester_2019-03-01T10:00:00";
        Log INFO "testing geocoder-tester on http://mimir:7000/autocomplete";
        HttpGet "http://mimir:7000/status"].
Proof.
  split; [|split].
  - apply (get_version_request_fails unreachable_status); reflexivity.
  - reflexivity.
  - reflexivity.
Qed.

(** [_init_output_dir] on a context without [output_dir]: the directory
    is made and recorded. *)
Lemma init_output_dir_fresh env name w :
  output_dir (ctx w) = None ->
  let dir := base_output_dir (ctx w) +:+ "/" +:+ name +:+ "_" +:+ now_isoformat env in
  dir ∉ dirs w ->
  _init_output_dir env name w
  = (Returned dir,
     World (set_output_dir dir (ctx w))
           ({[dir]} ∪ list_to_set (Path.ancestors dir) ∪ dirs w)
           (trace w ++ [MakeDirs dir])).
Proof.
  intros Hout dir Hdir. unfold _init_output_dir, bind, get_ctx.
  rewrite Hout. fold dir. unfold makedirs.
  by rewrite bool_decide_eq_false_2 by done.
Qed.

(** Without a URL, [run_all] raises only after [_init_output_dir] has
    made the run directory and recorded it in the context. *)
Lemma run_all_no_url env name regions w :
  output_dir (ctx w) = None ->
  let dir := base_output_dir (ctx w) +:+ "/" +:+ name +:+ "_" +:+ now_isoformat env in
  dir ∉ dirs w ->
  cfg_url (ctx w) = Some None \/ cfg_url (ctx w) = Some (Some "") ->
  (run_all env None name regions w).1 = Raised (Exception_ "no url provided")
  /\ trace (run_all env None name regions w).2 = trace w ++ [MakeDirs dir]
  /\ output_dir (ctx (run_all env None name regions w).2) = Some dir.
Proof.
  intros Hout dir Hdir Hurl.
  pose proof (init_output_dir_fresh env name w Hout Hdir) as Hinit. fold dir in Hinit.
  assert (exists c' d', output_dir c' = Some dir
            /\ run_all env None name regions w
               = (Raised (Exception_ "no url provided"),
                  World c' d' (trace w ++ [MakeDirs dir]))) as (c' & d' & Hc' & ->).
  { unfold run_all. unfold bind at 1. rewrite Hinit.
    unfold bind at 1. unfold get_ctx at 1. cbn [ctx].
    unfold bind at 1. cbn [group_truthy set_output_dir cfg_url].
    destruct Hurl as [-> | ->]; unfold ret at 1;
      destruct regions as [r|]; try destruct (negb (String.eqb r ""));
      unfold bind, put_ctx, ret, raise; cbn; do 2 eexists; (split; [|reflexivity]); done. }
  done.
Qed.

(** The same when the configuration has no [url] key at all: the
    lookup fails, after the directory was made. *)
Lemma run_all_no_url_key env name regions w :
  output_dir (ctx w) = None ->
  let dir := base_output_dir (ctx w) +:+ "/" +:+ name +:+ "_" +:+ now_isoformat env in
  dir ∉ dirs w ->
  cfg_url (ctx w) = None ->
  (run_all env None name regions w).1 = Raised (AttributeError "url")
  /\ trace (run_all env None name regions w).2 = trace w ++ [MakeDirs dir].
Proof.
  intros Hout dir Hdir Hurl.
  pose proof (init_output_dir_fresh env name w Hout Hdir) as Hinit. fold dir in Hinit.
  assert (exists c' d',
            run_all env None name regions w
            = (Raised (AttributeError "url"),
               World c' d' (trace w ++ [MakeDirs dir]))) as (c' & d' & ->).
  { unfold run_all. unfold bind at 1. rewrite Hinit.
    unfold bind at 1. unfold get_ctx at 1. cbn [ctx].
    unfold bind at 1. cbn [group_truthy set_output_dir cfg_url].
    rewrite Hurl. unfold raise. by eexists _, _. }
  done.
Qed.

(** C6 (the code departs from the claim).  With no URL as argument and
    none in the configuration, [run_all] raises, but only after it has
    created the run output directory. *)
Theorem run_all_without_url_creates_directory :
  (run_all unreachable_status None "geocoder-tester" None configured_world).1
  = Raised (Exception_ "no url provided")
  /\ trace (run_all unreachable_status None "geocoder-tester" None configured_world).2
     = [MakeDirs "results/geocoder-tester_2019-03-01T10:00:00"]
  /\ output_dir (ctx (run_all unreachable_status None "geocoder-tester" None
                              configured_world).2)
     = Some "results/geocoder-tester_2019-03-01T10:00:00".
Proof.
  apply (run_all_no_url unreachable_status "geocoder-tester" None configured_world);
    [reflexivity | apply not_elem_of_empty | by left].
Qed.

(** ** The selector of a category *)

Lemma omap_delete_none {A B} (f : A -> option B) (l : list A) i x :
  l !! i = Some x -> f x = None -> omap f (delete i l) = omap f l.
Proof.
  revert i; induction l as [|y l IH]; intros [|i]; try done.
  - intros [= ->] Hx. cbn. by rewrite Hx.
  - intros Hi Hx. change (omap f (y :: delete i l) = omap f (y :: l)).
    cbn. by rewrite (IH i Hi Hx).
Qed.

(** C8 (amended).  The selector computed for a category marked "catch
    remaining" is the conjunction, joined with [" and "], of ["not S"] for
    the selector [S] of every category that has one; these are the
    selectors of every other category when the marked category carries no
    selector of its own, as in
    [[{selector:"a"}, {selector:"b"}, {remaining_tests:true}]], which gives
    ["not a and not b"].  For a category not so marked, its own selector is
    used verbatim. *)
Theorem category_selector_spec (c : context) (cat : category) :
  (cat_remaining_tests cat = Some true ->
     category_selector c cat
     = Returned (Text.join " and "
                   ((fun s => "not " +:+ s) <$> omap cat_selector (cfg_categories c)))
     /\ forall i,
          cfg_categories c !! i = Some cat ->
          cat_selector cat = None ->
          category_selector c cat
          = Returned (Text.join " and "
                        ((fun s => "not " +:+ s)
                           <$> omap cat_selector (delete i (cfg_categories c)))))
  /\ (cat_remaining_tests cat <> Some true ->
      forall s, cat_selector cat = Some s -> category_selector c cat = Returned s).
Proof.
  unfold category_selector, _get_remaining_tests. split.
  - intros ->. simpl. split; [done|].
    intros i Hi Hnone. by rewrite (omap_delete_none _ _ i cat Hi Hnone).
  - intros Hne s ->. by destruct (cat_remaining_tests cat) as [[]|].
Qed.

Lemma category_selector_spec_witness :
  category_selector three_categories (Category (Some "rest") None (Some true))
  = Returned "not a and not b"
  /\ category_selector three_categories (Category (Some "addr") (Some "a") None)
     = Returned "a".
Proof.
  destruct (category_selector_spec three_categories
              (Category (Some "rest") None (Some true))) as [H _].
  destruct (category_selector_spec three_categories
              (Category (Some "addr") (Some "a") None)) as [_ H'].
  split.
  - destruct (H eq_refl) as [_ H2]. apply (H2 2); reflexivity.
  - apply H'; [discriminate | reflexivity].
Defined.

(** C8 as stated fails: a marked category that has a selector of its own
    gets that selector negated too, not only those of the other
    categories. *)
Lemma category_selector_spec_counterexample :
  let cat := Category (Some "rest") (Some "c") (Some true) in
  let c := Context None [] [Category (Some "addr") (Some "a") None; cat]
                   "" "" None None in
  cfg_categories c !! 1 = Some cat
  /\ category_selector c cat = Returned "not a and not c"
  /\ Text.join " and " ((fun s => "not " +:+ s)
                          <$> omap cat_selector (delete 1 (cfg_categories c)))
     = "not a"
  /\ category_selector c cat
     <> Returned (Text.join " and "
                    ((fun s => "not " +:+ s)
                       <$> omap cat_selector (delete 1 (cfg_categories c)))).
Proof. repeat split. discriminate. Qed.

(** ** The text table *)

Section table_facts.
Implicit Types (d : record) (keys : list string) (lengths : gmap string nat).

Lemma foldl_insert_lookup {V} (f : string -> V) keys (m : gmap string V) k :
  foldl (fun r key => <[key := f key]> r) m keys !! k
  = if bool_decide (k ∈ keys) then Some (f k) else m !! k.
Proof.
  revert m; induction keys as [|key keys IH]; intros m; simpl; [done|].
  rewrite IH. destruct (decide (k = key)) as [->|Hne].
  - rewrite lookup_insert_eq.
    rewrite (bool_decide_eq_true_2 (key ∈ key :: keys)) by apply list_elem_of_here.
    by destruct (bool_decide (key ∈ keys)).
  - rewrite lookup_insert_ne by done.
    destruct (decide (k ∈ keys)) as [Hin|Hnin].
    + rewrite !bool_decide_eq_true_2; [done | by apply list_elem_of_further | done].
    + rewrite !bool_decide_eq_false_2; [done | | done].
      by intros [?|?]%elem_of_cons.
Qed.

Lemma list_to_map_pairs {V} (f : string -> V) keys k :
  k ∈ keys ->
  (list_to_map ((fun key => (key, f key)) <$> keys) : gmap string V) !! k
  = Some (f k).
Proof.
  induction keys as [|key keys IH]; [by intros ?%elem_of_nil|].
  intros Hin. simpl. destruct (decide (k = key)) as [->|Hne].
  - by rewrite lookup_insert_eq.
  - rewrite lookup_insert_ne by done. apply IH.
    by apply elem_of_cons in Hin as [?|?].
Qed.

Lemma zip_with_self {V} (f : string -> V) keys :
  zip keys (f <$> keys) = (fun key => (key, f key)) <$> keys.
Proof. induction keys as [|key keys IH]; [done|]. cbn. by rewrite IH. Qed.

Lemma dict_zip_lookup (f : string -> value) keys k :
  k ∈ keys -> dict_zip keys (f <$> keys) !! k = Some (f k).
Proof.
  intros Hin. unfold dict_zip.
  rewrite zip_with_self, <- fmap_reverse.
  apply list_to_map_pairs. by apply elem_of_reverse.
Qed.

(** Cells that find their value, none of them [None], are centred. *)
Lemma format_cells_centered (g : string -> value) (tpl : template) kwargs :
  (forall key n, (key, n) ∈ tpl ->
     kwargs !! key = Some (g key) /\ g key <> VNone) ->
  format_cells tpl kwargs
  = Returned ((fun cell => center (py_str (g cell.1)) cell.2) <$> tpl).
Proof.
  induction tpl as [|[key n] tpl IH]; intros H; simpl; [done|].
  destruct (H key n) as [-> Hg]; [apply list_elem_of_here|].
  rewrite IH by (intros k' n' ?; apply (H k' n'); by apply list_elem_of_further).
  by destruct (g key).
Qed.

Lemma format_template_centered (g : string -> value) keys lengths kwargs :
  (forall key, key ∈ keys -> kwargs !! key = Some (g key) /\ g key <> VNone) ->
  format_template ((fun key => (key, lengths !!! key)) <$> keys) kwargs
  = Returned (Text.join "|"
                ((fun key => center (py_str (g key)) (lengths !!! key)) <$> keys)).
Proof.
  intros H. unfold format_template.
  rewrite (format_cells_centered g).
  - by rewrite <- list_fmap_compose.
  - intros key n [key' [[= -> ->] Hin]]%list_elem_of_fmap. by apply H.
Qed.

Lemma cell_value_not_none d key : cell_value d key <> VNone.
Proof.
  unfold cell_value. destruct (d !! key) as [[|n|s]|] eqn:E; simpl; try done.
  - by destruct (negb _).
  - by destruct (negb _).
Qed.

Lemma length_repeat_char c n : String.length (Text.repeat_char c n) = n.
Proof. induction n; simpl; congruence. Qed.

Lemma center_exact s : center s (String.length s) = s.
Proof.
  unfold center. rewrite Nat.sub_diag. simpl. apply string_app_nil_r.
Qed.

Lemma render_rows_centered keys lengths dicts :
  render_rows ((fun key => (key, lengths !!! key)) <$> keys) keys dicts
  = Returned ((fun d => Text.join "|"
                 ((fun key => center (py_str (cell_value d key)) (lengths !!! key))
                    <$> keys))
              <$> dicts).
Proof.
  induction dicts as [|d dicts IH]; simpl; [done|].
  rewrite (format_template_centered (cell_value d)), IH; [done|].
  intros key Hin. split; [|apply cell_value_not_none].
  rewrite foldl_insert_lookup. by rewrite bool_decide_eq_true_2.
Qed.

(** Columns only grow. *)
Lemma widen_ge d lengths key k : lengths !!! k <= widen d lengths key !!! k.
Proof.
  unfold widen. destruct (_ <? _)%nat eqn:E; [|done].
  apply Nat.ltb_lt in E. destruct (decide (key = k)) as [->|Hne].
  - rewrite lookup_total_insert_eq. lia.
  - by rewrite lookup_total_insert_ne.
Qed.

Lemma foldl_widen_ge d keys lengths k :
  lengths !!! k <= foldl (widen d) lengths keys !!! k.
Proof.
  revert lengths; induction keys as [|key keys IH]; intros lengths; simpl; [done|].
  etrans; [apply (widen_ge d lengths key)|apply IH].
Qed.

Lemma foldl_dicts_ge dicts keys lengths k :
  lengths !!! k <= foldl (fun l d => foldl (widen d) l keys) lengths dicts !!! k.
Proof.
  revert lengths; induction dicts as [|d dicts IH]; intros lengths; simpl; [done|].
  etrans; [apply (foldl_widen_ge d keys)|apply IH].
Qed.

Lemma initial_lengths keys k :
  k ∈ keys ->
  foldl (fun l key => <[key := String.length key + 2]> l) (∅ : gmap string nat) keys !!! k
  = String.length k + 2.
Proof.
  intros Hin. unfold lookup_total, map_lookup_total.
  rewrite foldl_insert_lookup. by rewrite bool_decide_eq_true_2.
Qed.

Lemma column_lengths_ge dicts keys k :
  k ∈ keys -> String.length k + 2 <= column_lengths dicts keys !!! k.
Proof.
  intros Hin. unfold column_lengths.
  rewrite <- (initial_lengths keys k Hin) at 1. apply foldl_dicts_ge.
Qed.
End table_facts.

(** C7 (amended).  For column names that are plain field names, the
    Report Renderer returns an empty list of lines when the record list is
    empty; when it is not empty it returns one empty line, then a header
    row of centred column names, then a separator row of dashes, then
    exactly one row per record with missing or falsy values shown as [_];
    and every column's width is at least the length of its header plus 2. *)
Theorem pretty_print_table dicts keys :
  Forall (fun key => plain_field key = true) keys ->
  _pretty_print [] keys = Returned []
  /\ (dicts <> [] ->
      let width := fun key => column_lengths dicts keys !!! key in
      _pretty_print dicts keys
      = Returned
          ("" :: Text.join "|" ((fun key => center key (width key)) <$> keys)
              :: Text.join "|" ((fun key => Text.repeat_char "-" (width key)) <$> keys)
              :: ((fun d => Text.join "|"
                     ((fun key => center (py_str (cell_value d key)) (width key)) <$> keys))
                  <$> dicts))
      /\ forall key, key ∈ keys -> String.length key + 2 <= width key).
Proof.
  intros _. split; [done|]. intros Hne width. split.
  - subst width. unfold _pretty_print. destruct dicts as [|d0 dicts0]; [done|].
    set (lengths := column_lengths (d0 :: dicts0) keys).
    cbv zeta.
    rewrite (format_template_centered VStr keys lengths).
    2: { intros key Hin. split; [|done]. by apply dict_zip_lookup. }
    rewrite (format_template_centered
               (fun key => VStr (Text.repeat_char "-" (lengths !!! key))) keys lengths).
    2: { intros key Hin. split; [|done].
         by apply (dict_zip_lookup
                     (fun k => VStr (Text.repeat_char "-" (lengths !!! k)))). }
    rewrite render_rows_centered.
    do 5 f_equal. apply list_fmap_ext. intros _ key _.
    cbn [py_str].
    rewrite <- (length_repeat_char "-" (lengths !!! key)) at 2. apply center_exact.
  - intros key Hin. by apply column_lengths_ge.
Qed.

Lemma pretty_print_table_witness :
  _pretty_print [ {[ "region" := VStr "fr"; "failed" := VInt 0; "total" := VInt 12 ]} ]
                ["region"; "failed"; "total"]
  = Returned [""; " region | failed | total ";
                  "--------|--------|-------";
                  "   fr   |   _    |  12   "].
Proof.
  destruct (pretty_print_table
              [ {[ "region" := VStr "fr"; "failed" := VInt 0; "total" := VInt 12 ]} ]
              ["region"; "failed"; "total"]) as [_ H].
  { repeat constructor. }
  destruct H as [H _]; [done|].
  rewrite H. reflexivity.
Defined.

(** C7 as stated fails: the lines for one record are four, and the first
    of them is empty; they are not a header, a separator and one row. *)
Lemma pretty_print_table_counterexample :
  _pretty_print [ {[ "a" := VStr "x" ]} ] ["a"]
  = Returned [""; " a "; "---"; " x "]
  /\ ~ (exists header separator row,
          _pretty_print [ {[ "a" := VStr "x" ]} ] ["a"]
          = Returned [header; separator; row]).
Proof.
  split; [reflexivity|]. intros (header & separator & row & H). discriminate H.
Qed.

(** ** A falsy value is shown as a missing one *)

Section falsy_facts.
Implicit Types (d : record) (keys : list string) (lengths : gmap string nat).

Lemma falsy_cases v :
  truthy v = false -> v = VNone \/ v = VInt 0 \/ v = VStr "".
Proof.
  destruct v as [|n|s]; simpl; [auto| |].
  - intros ->%negb_false_iff%Z.eqb_eq. auto.
  - intros ->%negb_false_iff%String.eqb_eq. auto.
Qed.

Lemma cell_value_delete d k v key :
  d !! k = Some v -> truthy v = false ->
  cell_value (delete k d) key = cell_value d key.
Proof.
  intros Hk Hv. unfold cell_value. destruct (decide (key = k)) as [->|Hne].
  - by rewrite lookup_delete_eq, Hk, Hv.
  - by rewrite lookup_delete_ne.
Qed.

(** The text that stands for a falsy value is at most four characters
    long, and four only for [None]. *)
Lemma falsy_length v k :
  truthy v = false -> (v = VNone -> 2 <= String.length k) ->
  String.length (py_str v) <= String.length k + 2.
Proof.
  intros Hv Hnone. destruct (falsy_cases v Hv) as [->|[->| ->]].
  - specialize (Hnone eq_refl). change (String.length (py_str VNone)) with 4. lia.
  - change (String.length (py_str (VInt 0))) with 1. lia.
  - change (String.length (py_str (VStr ""))) with 0. lia.
Qed.

(** A falsy value no longer than its column never widens it, and neither
    does its absence. *)
Lemma widen_delete d k v lengths key :
  d !! k = Some v ->
  String.length (py_str v) <= String.length k + 2 ->
  String.length key + 2 <= lengths !!! key ->
  widen (delete k d) lengths key = widen d lengths key.
Proof.
  intros Hk Hlen Hl. unfold widen. destruct (decide (key = k)) as [->|Hne].
  - rewrite lookup_delete_eq, Hk.
    cbn [default from_option id].
    change (String.length (py_str (VStr ""))) with 0.
    assert ((lengths !!! k <? 0)%nat = false) as -> by (apply Nat.ltb_ge; lia).
    assert ((lengths !!! k <? String.length (py_str v))%nat = false) as ->
      by (apply Nat.ltb_ge; lia).
    done.
  - by rewrite lookup_delete_ne.
Qed.

Lemma foldl_widen_delete d k v keys all_keys lengths :
  d !! k = Some v ->
  String.length (py_str v) <= String.length k + 2 ->
  keys ⊆ all_keys ->
  (forall key, key ∈ all_keys -> String.length key + 2 <= lengths !!! key) ->
  foldl (widen (delete k d)) lengths keys = foldl (widen d) lengths keys.
Proof.
  intros Hk Hlen. revert lengths.
  induction keys as [|key keys IH]; intros lengths Hsub Hl; simpl; [done|].
  rewrite (widen_delete d k v) by (try done; apply Hl, Hsub, list_elem_of_here).
  apply IH; [intros key' ?; by apply Hsub, list_elem_of_further|].
  intros key' Hin. etrans; [by apply Hl|apply widen_ge].
Qed.

Lemma column_lengths_delete dicts1 d dicts2 k v keys :
  d !! k = Some v ->
  String.length (py_str v) <= String.length k + 2 ->
  column_lengths (dicts1 ++ delete k d :: dicts2) keys
  = column_lengths (dicts1 ++ d :: dicts2) keys.
Proof.
  intros Hk Hlen. unfold column_lengths.
  rewrite !foldl_app. simpl. f_equal.
  apply (foldl_widen_delete d k v keys keys); [done..|].
  intros key Hin. etrans; [|apply foldl_dicts_ge].
  by rewrite initial_lengths.
Qed.

Lemma render_rows_delete tpl keys dicts1 d dicts2 k v :
  d !! k = Some v -> truthy v = false ->
  render_rows tpl keys (dicts1 ++ delete k d :: dicts2)
  = render_rows tpl keys (dicts1 ++ d :: dicts2).
Proof.
  intros Hk Hv. induction dicts1 as [|d1 dicts1 IH]; simpl.
  - assert (foldl (fun r key => <[key := cell_value (delete k d) key]> r)
                  (∅ : record) keys
            = foldl (fun r key => <[key := cell_value d key]> r) ∅ keys) as ->; [|done].
    generalize (∅ : record). induction keys as [|key keys IHk]; intros r; simpl; [done|].
    by rewrite (cell_value_delete d k v), IHk.
  - by rewrite IH.
Qed.

(** The lines of the table of a list of records that is not empty. *)
Lemma pretty_print_lines dicts keys :
  dicts <> [] ->
  let width := fun key => column_lengths dicts keys !!! key in
  _pretty_print dicts keys
  = Returned
      ("" :: Text.join "|" ((fun key => center key (width key)) <$> keys)
          :: Text.join "|" ((fun key => Text.repeat_char "-" (width key)) <$> keys)
          :: ((fun d => Text.join "|"
                 ((fun key => center (py_str (cell_value d key)) (width key)) <$> keys))
              <$> dicts)).
Proof.
  intros Hne width. subst width. unfold _pretty_print.
  destruct dicts as [|d0 dicts0]; [done|].
  set (lengths := column_lengths (d0 :: dicts0) keys).
  cbv zeta.
  rewrite (format_template_centered VStr keys lengths).
  2: { intros key Hin. split; [|done]. by apply dict_zip_lookup. }
  rewrite (format_template_centered
             (fun key => VStr (Text.repeat_char "-" (lengths !!! key))) keys lengths).
  2: { intros key Hin. split; [|done].
       by apply (dict_zip_lookup
                   (fun k => VStr (Text.repeat_char "-" (lengths !!! k)))). }
  rewrite render_rows_centered.
  do 5 f_equal. apply list_fmap_ext. intros _ key _.
  cbn [py_str].
  rewrite <- (length_repeat_char "-" (lengths !!! key)) at 2. apply center_exact.
Qed.

(** The cells of a record that holds a falsy value under [k], and of the
    same record without [k]: an underscore in column [k]. *)
Lemma falsy_cell d k v d' key :
  d !! k = Some v -> truthy v = false ->
  d' = d \/ d' = delete k d ->
  py_str (cell_value d' key)
  = if String.eqb key k then "_" else py_str (cell_value d key).
Proof.
  intros Hk Hv Hd'.
  assert (cell_value d' key = cell_value d key) as ->.
  { destruct Hd' as [->| ->]; [done|]. by apply (cell_value_delete d k v). }
  destruct (String.eqb_spec key k) as [->|Hne]; [|done].
  unfold cell_value. by rewrite Hk, Hv.
Qed.
End falsy_facts.

(** C10 (amended).  In the rendered table a field whose value is present
    but falsy is shown as [_], as a missing field is: the table of a list
    of records is the empty line, the header, the dashes and one row for
    each record, and the row of a record that holds a falsy value under
    [k] has [_] in column [k], as the row of the same record without [k]
    has.  For the integer 0 and for the empty text, and for [None] under a
    column name of two characters or more, the whole table is the one
    rendered without the field: a reader cannot tell [failed = 0] from
    [failed] absent. *)
Theorem falsy_value_rendered_as_missing dicts1 d dicts2 keys k v :
  Forall (fun key => plain_field key = true) keys ->
  d !! k = Some v ->
  truthy v = false ->
  (forall d',
     d' = d \/ d' = delete k d ->
     let width := fun key => column_lengths (dicts1 ++ d' :: dicts2) keys !!! key in
     let row := fun r =>
       Text.join "|"
         ((fun key => center (py_str (cell_value r key)) (width key)) <$> keys) in
     _pretty_print (dicts1 ++ d' :: dicts2) keys
     = Returned
         ("" :: Text.join "|" ((fun key => center key (width key)) <$> keys)
             :: Text.join "|" ((fun key => Text.repeat_char "-" (width key)) <$> keys)
             :: (row <$> dicts1)
                ++ Text.join "|"
                     ((fun key =>
                         center (if String.eqb key k then "_"
                                 else py_str (cell_value d key)) (width key))
                        <$> keys)
                   :: (row <$> dicts2)))
  /\ ((v = VNone -> 2 <= String.length k) ->
      _pretty_print (dicts1 ++ d :: dicts2) keys
      = _pretty_print (dicts1 ++ delete k d :: dicts2) keys).
Proof.
  intros _ Hk Hv. split.
  - intros d' Hd' width row.
    rewrite pretty_print_lines by (by destruct dicts1).
    rewrite fmap_app, fmap_cons. subst row width. cbv beta.
    do 5 f_equal. f_equal. f_equal. apply list_fmap_ext. intros _ key _.
    by rewrite (falsy_cell d k v d' key Hk Hv Hd').
  - intros Hnone. unfold _pretty_print.
    rewrite (column_lengths_delete dicts1 d dicts2 k v keys Hk
               (falsy_length v k Hv Hnone)).
    rewrite (render_rows_delete _ keys dicts1 d dicts2 k v Hk Hv).
    by destruct dicts1.
Qed.

Lemma falsy_value_rendered_as_missing_witness :
  _pretty_print [ {[ "region" := VStr "fr"; "failed" := VInt 0; "total" := VInt 12 ]} ]
                ["region"; "failed"; "total"]
  = Returned [""; " region | failed | total ";
                  "--------|--------|-------";
                  "   fr   |   _    |  12   "]
  /\ _pretty_print [ {[ "region" := VStr "fr"; "failed" := VInt 0; "total" := VInt 12 ]} ]
                   ["region"; "failed"; "total"]
     = _pretty_print [ {[ "region" := VStr "fr"; "total" := VInt 12 ]} ]
                     ["region"; "failed"; "total"].
Proof.
  destruct (falsy_value_rendered_as_missing []
              {[ "region" := VStr "fr"; "failed" := VInt 0; "total" := VInt 12 ]} []
              ["region"; "failed"; "total"] "failed" (VInt 0))
    as [H1 H2]; [repeat constructor | reflexivity | reflexivity |].
  split.
  - etrans; [exact (H1 _ (or_introl eq_refl)) | reflexivity].
  - exact (H2 ltac:(discriminate)).
Defined.

(** C10 as stated fails for [None] under a column name of one character:
    [str(None)] is four characters long and widens the column to six,
    where the missing field leaves it at three.  Both cells hold [_], yet
    the two tables differ. *)
Lemma falsy_value_rendered_as_missing_counterexample :
  truthy VNone = false
  /\ _pretty_print [ {[ "a" := VNone ]} ] ["a"]
     = Returned [""; "  a   "; "------"; "  _   "]
  /\ _pretty_print [ delete "a" {[ "a" := VNone ]} ] ["a"]
     = Returned [""; " a "; "---"; " _ "]
  /\ _pretty_print [ {[ "a" := VNone ]} ] ["a"]
     <> _pretty_print [ delete "a" {[ "a" := VNone ]} ] ["a"].
Proof.
  split; [reflexivity|]. split; [reflexivity|]. split; [reflexivity|].
  intros H. discriminate H.
Qed.
